(** * scrcpy GUI backend: command execution, output classification and
      session supervision

    A shallow embedding of [gui/backend/errors.go] and
    [gui/backend/backend.go].

    Modelling conventions.
    - A Go [string] is a sequence of bytes; it is modelled by [string]
      (a list of [ascii] bytes).  [Contains], [HasPrefix] and [Split] work
      on the bytes, as in Go.  The white space of [TrimSpace] and [Fields]
      is the set of runes of [unicode.IsSpace], met in the bytes as their
      UTF-8 encodings.  [ToLower] lowers ASCII text byte by byte; on any
      other text Go maps every rune through its Unicode tables, which are
      not reproduced here: that path is the member [mapToLower] of the
      class [Unicode], and every statement holds whatever that function
      is.
    - A Go [int] is modelled by [Z]; the code only compares ints with 0 and
      prints them.
    - A Go [error] is a value of [GoError]; a nil error is [None].
    - Running an external command is an effect: the operating system is an
      explicit state [OS] that answers every [cmd.Run()] and logs it.
    - The mirroring session is a transition system: a step is one critical
      section of [Backend.mu], the end of a process, or a call taken as a
      whole; the goroutines interleave at these steps.  A step is something
      that can happen, not something that must. *)

From Stdlib Require Import String Ascii List ZArith Lia Bool Arith.
From Stdlib Require Import DecimalString.
Import ListNotations.
Local Open Scope string_scope.
Local Open Scope list_scope.

(** ** Package [strings] *)

(** The Unicode tables of Go as far as the program reaches them:
    [mapToLower s] is [strings.Map(unicode.ToLower, s)], the path
    [strings.ToLower] takes on a text that is not ASCII only. *)
Class Unicode : Type := {
  mapToLower : string -> string
}.

Module Strings.

Definition byte (c : ascii) : nat := nat_of_ascii c.

(** The ASCII white space: tab, line feed, vertical tab, form feed,
    carriage return, space. *)
Definition isSpace (c : ascii) : bool :=
  let n := nat_of_ascii c in
  (Nat.leb 9 n && Nat.leb n 13) || Nat.eqb n 32.

(** The two white-space runes of Latin-1 above ASCII, U+0085 and U+00A0, in
    UTF-8: C2 85 and C2 A0. *)
Definition isLatin1Space (c d : ascii) : bool :=
  Nat.eqb (byte c) 194 && (Nat.eqb (byte d) 133 || Nat.eqb (byte d) 160).

(** The white-space runes above Latin-1 in UTF-8: U+1680 (E1 9A 80),
    U+2000 to U+200A (E2 80 80 to E2 80 8A), U+2028, U+2029 and U+202F
    (E2 80 A8, E2 80 A9, E2 80 AF), U+205F (E2 81 9F), U+3000 (E3 80 80). *)
Definition isWideSpace (c d e : ascii) : bool :=
  (Nat.eqb (byte c) 225 && Nat.eqb (byte d) 154 && Nat.eqb (byte e) 128) ||
  (Nat.eqb (byte c) 226 && Nat.eqb (byte d) 128 &&
   ((Nat.leb 128 (byte e) && Nat.leb (byte e) 138) ||
    Nat.eqb (byte e) 168 || Nat.eqb (byte e) 169 || Nat.eqb (byte e) 175)) ||
  (Nat.eqb (byte c) 226 && Nat.eqb (byte d) 129 && Nat.eqb (byte e) 159) ||
  (Nat.eqb (byte c) 227 && Nat.eqb (byte d) 128 && Nat.eqb (byte e) 128).

(** The width in bytes of the white-space rune [s] begins with, 0 when [s]
    does not begin with one: what [utf8.DecodeRuneInString] followed by
    [unicode.IsSpace] finds at the start of [s]. *)
Definition spaceWidth (s : string) : nat :=
  match s with
  | EmptyString => 0
  | String c s1 =>
      if isSpace c then 1
      else match s1 with
           | EmptyString => 0
           | String d s2 =>
               if isLatin1Space c d then 2
               else match s2 with
                    | EmptyString => 0
                    | String e _ => if isWideSpace c d e then 3 else 0
                    end
           end
  end.

(** The same for the end of a text, on its bytes taken last to first: what
    [utf8.DecodeLastRuneInString] followed by [unicode.IsSpace] finds. *)
Definition spaceWidthRev (s : string) : nat :=
  match s with
  | EmptyString => 0
  | String c s1 =>
      if isSpace c then 1
      else match s1 with
           | EmptyString => 0
           | String d s2 =>
               if isLatin1Space d c then 2
               else match s2 with
                    | EmptyString => 0
                    | String e _ => if isWideSpace e d c then 3 else 0
                    end
           end
  end.

Fixpoint dropBytes (n : nat) (s : string) : string :=
  match n, s with
  | O, _ => s
  | S k, String _ s' => dropBytes k s'
  | S _, EmptyString => EmptyString
  end.

Fixpoint takeBytes (n : nat) (s : string) : string :=
  match n, s with
  | O, _ => EmptyString
  | S k, String c s' => String c (takeBytes k s')
  | S _, EmptyString => EmptyString
  end.

(** Takes the runes measured by [width] off the start of [s], one per unit
    of [fuel]; the length of [s] is fuel enough. *)
Fixpoint trimRunes (width : string -> nat) (fuel : nat) (s : string) : string :=
  match fuel with
  | O => s
  | S fuel' =>
      match width s with
      | O => s
      | S w => trimRunes width fuel' (dropBytes (S w) s)
      end
  end.

Definition reverse (s : string) : string :=
  string_of_list_ascii (rev (list_ascii_of_string s)).

Definition trimLeft (s : string) : string :=
  trimRunes spaceWidth (String.length s) s.

Definition trimRight (s : string) : string :=
  reverse (trimRunes spaceWidthRev (String.length s) (reverse s)).

(** [strings.TrimSpace] *)
Definition TrimSpace (s : string) : string := trimRight (trimLeft s).

(** [strings.HasPrefix] *)
Fixpoint HasPrefix (s prefix : string) {struct prefix} : bool :=
  match prefix, s with
  | EmptyString, _ => true
  | String _ _, EmptyString => false
  | String p prefix', String c s' => Ascii.eqb c p && HasPrefix s' prefix'
  end.

(** [strings.Contains]: [substr] starts at some position of [s]. *)
Fixpoint Contains (s substr : string) : bool :=
  HasPrefix s substr ||
  match s with
  | EmptyString => false
  | String _ s' => Contains s' substr
  end.

(** [strings.Split] for a non-empty separator.  [skip] counts the bytes of
    a separator occurrence still to be stepped over, [cur] is the piece
    being collected. *)
Fixpoint splitFrom (sep : string) (skip : nat) (cur s : string) : list string :=
  match s with
  | EmptyString => [cur]
  | String c s' =>
      match skip with
      | S k => splitFrom sep k cur s'
      | O =>
          if HasPrefix s sep
          then cur :: splitFrom sep (String.length sep - 1) EmptyString s'
          else splitFrom sep 0 (cur ++ String c EmptyString) s'
      end
  end.

Definition Split (s sep : string) : list string := splitFrom sep 0 EmptyString s.

(** [strings.Fields]: the maximal runs of bytes between white-space runes.
    [skip] counts the bytes of a white-space rune still to be stepped
    over, [cur] is the field being collected. *)
Fixpoint fieldsFrom (skip : nat) (cur s : string) : list string :=
  match s with
  | EmptyString =>
      match cur with EmptyString => [] | _ => [cur] end
  | String c s' =>
      match skip with
      | S k => fieldsFrom k cur s'
      | O =>
          match spaceWidth s with
          | O => fieldsFrom 0 (cur ++ String c EmptyString) s'
          | S w =>
              match cur with
              | EmptyString => fieldsFrom w EmptyString s'
              | _ => cur :: fieldsFrom w EmptyString s'
              end
          end
      end
  end.

Definition Fields (s : string) : list string := fieldsFrom 0 EmptyString s.

Definition isUpper (c : ascii) : bool :=
  let n := nat_of_ascii c in Nat.leb 65 n && Nat.leb n 90.

Definition lowerByte (c : ascii) : ascii :=
  if isUpper c then ascii_of_nat (nat_of_ascii c + 32) else c.

(** Every byte is below [utf8.RuneSelf]. *)
Fixpoint isASCII (s : string) : bool :=
  match s with
  | EmptyString => true
  | String c s' => Nat.ltb (nat_of_ascii c) 128 && isASCII s'
  end.

Fixpoint lowerASCII (s : string) : string :=
  match s with
  | EmptyString => EmptyString
  | String c s' => String (lowerByte c) (lowerASCII s')
  end.

(** [strings.ToLower]: byte by byte on ASCII text, through the Unicode
    tables otherwise. *)
Definition ToLower {U : Unicode} (s : string) : string :=
  if isASCII s then lowerASCII s else mapToLower s.

End Strings.

(** [strconv.Itoa]: the decimal numeral, with a minus sign when negative. *)
Definition Itoa (n : Z) : string := NilZero.string_of_int (Z.to_int n).

(** ** [errors.go] *)

(** The values of the Go interface [error] that reach this package.
    [Errorf] is an error made by [fmt.Errorf] without [%w]; its format and
    arguments are kept apart, so that the verb [%q] needs no model.
    [Wrapped] is any error with an [Unwrap] method, such as the [*exec.Error]
    of a failed spawn. *)
Inductive GoError : Type :=
| DeadlineExceeded
| Canceled
| ExitError (code : Z)
| Errorf (format : string) (args : list string)
| Wrapped (msg : string) (inner : GoError).

Inductive ErrorKind : Type :=
| ErrorKindTimeout
| ErrorKindCommandFailed
| ErrorKindParse
| ErrorKindInvalidInput
| ErrorKindNotRunning.

Definition ErrorKind_string (k : ErrorKind) : string :=
  match k with
  | ErrorKindTimeout => "timeout"
  | ErrorKindCommandFailed => "command_failed"
  | ErrorKindParse => "parse"
  | ErrorKindInvalidInput => "invalid_input"
  | ErrorKindNotRunning => "not_running"
  end.

Record UIError : Type := {
  Kind : ErrorKind;
  Message : string;
  Command : string;
  Stdout : string;
  Stderr : string;
  ExitCode : Z;
  Err : option GoError
}.

(** [UIError.Error]; the receiver may be nil. *)
Definition Error (e : option UIError) : string :=
  match e with
  | None => "<nil>"
  | Some e =>
      if negb (Message e =? EmptyString) then Message e
      else if negb (Command e =? EmptyString)
           then ErrorKind_string (Kind e) ++ ": " ++ Command e
           else ErrorKind_string (Kind e)
  end.

(** [UIError.Unwrap] *)
Definition Unwrap (e : option UIError) : option GoError :=
  match e with
  | None => None
  | Some e => Err e
  end.

Definition newInvalidInputError (message : string) : UIError :=
  {| Kind := ErrorKindInvalidInput; Message := message; Command := EmptyString;
     Stdout := EmptyString; Stderr := EmptyString; ExitCode := 0; Err := None |}.

Definition newNotRunningError (message : string) : UIError :=
  {| Kind := ErrorKindNotRunning; Message := message; Command := EmptyString;
     Stdout := EmptyString; Stderr := EmptyString; ExitCode := 0; Err := None |}.

Definition newTimeoutError (command : string) (err : GoError) : UIError :=
  {| Kind := ErrorKindTimeout;
     Message := "timeout while running " ++ command;
     Command := command;
     Stdout := EmptyString; Stderr := EmptyString; ExitCode := 0;
     Err := Some err |}.

Definition newCommandFailedError (command stdout stderr : string)
    (exitCode : Z) (err : GoError) : UIError :=
  {| Kind := ErrorKindCommandFailed;
     Message := "command failed: " ++ command;
     Command := command;
     Stdout := stdout; Stderr := stderr; ExitCode := exitCode;
     Err := Some err |}.

Definition newParseError (command stdout stderr : string) (err : GoError)
    : UIError :=
  {| Kind := ErrorKindParse;
     Message := "unexpected output from " ++ command;
     Command := command;
     Stdout := stdout; Stderr := stderr; ExitCode := 0;
     Err := Some err |}.

(** [isTimeout]: identity with one of the two context errors, no unwrapping. *)
Definition isTimeout (err : GoError) : bool :=
  match err with
  | DeadlineExceeded | Canceled => true
  | _ => false
  end.

(** [errors.As(err, &exitErr)] followed by [exitErr.ExitCode()]: the first
    [*exec.ExitError] on the unwrap chain. *)
Fixpoint asExitError (err : GoError) : option Z :=
  match err with
  | ExitError code => Some code
  | Wrapped _ inner => asExitError inner
  | _ => None
  end.

(** ** The operating system as seen by [os/exec] *)

(** One call of [cmd.Run()] on a command made by
    [exec.CommandContext(ctx, command, args...)]; the context is the one
    made by [context.WithTimeout], known by its timeout in nanoseconds.  The
    call is recorded whether or not [Run] gets as far as creating a
    process. *)
Record Spawn : Type := {
  sp_timeout : Z;
  sp_command : string;
  sp_args : list string
}.

(** What one [cmd.Run()] leaves behind: the bytes written to the two
    buffers, the error of [Run], and [ctx.Err()] read after [Run]. *)
Record ProcResult : Type := {
  raw_stdout : string;
  raw_stderr : string;
  run_err : option GoError;
  ctx_err : option GoError
}.

(** The machine: how it answers a call of [Run] given all earlier ones,
    and the calls so far, oldest first.  With no call made no process has
    been created; a call that fails early (executable not found, context
    already done) is in the log without a process behind it. *)
Record OS : Type := {
  respond : list Spawn -> Spawn -> ProcResult;
  spawned : list Spawn
}.

(** Computations that may call [Run]. *)
Definition M (A : Type) : Type := OS -> A * OS.

Definition ret {A : Type} (a : A) : M A := fun os => (a, os).

Definition bind {A B : Type} (m : M A) (k : A -> M B) : M B :=
  fun os => let (a, os') := m os in k a os'.

Notation "x <- m ;; k" := (bind m (fun x => k))
  (at level 61, m at next level, right associativity).

(** [cmd.Run()] on a command made by [exec.CommandContext]. *)
Definition cmdRun (timeout : Z) (command : string) (args : list string)
    : M ProcResult :=
  fun os =>
    let sp := {| sp_timeout := timeout; sp_command := command; sp_args := args |} in
    (respond os (spawned os) sp,
     {| respond := respond os; spawned := spawned os ++ [sp] |}).

(** ** [backend.go] *)

Definition Second : Z := 1000000000.
Definition Hour : Z := 3600 * Second.
Definition defaultAdbTimeout : Z := 10 * Second.
Definition defaultScrcpyTimeout : Z := 24 * Hour.

Record Device : Type := { ID : string; State : string }.

Record ScrcpyOptions : Type := {
  BitRate : string;
  MaxSize : Z;
  MaxFps : Z;
  TurnScreenOff : bool;
  Fullscreen : bool;
  StayAwake : bool;
  Record_ : string;
  WindowTitle : string;
  ExtraArgs : list string
}.

(** A started [*exec.Cmd]; [cmd_pid] names the process. *)
Record Cmd : Type := {
  cmd_pid : nat;
  cmd_path : string;
  cmd_args : list string
}.

(** A [context.CancelFunc], known by the process whose context it cancels. *)
Definition CancelFunc : Type := nat.

(** [Backend]; the mutex [mu] is not a field of the model: every critical
    section is one atomic function of the state. *)
Record Backend : Type := {
  adbPath : string;
  scrcpyPath : string;
  adbTimeout : Z;
  scrcpyTimeout : Z;
  scrcpyCmd : option Cmd;
  scrcpyCancel : option CancelFunc
}.

Definition NewBackend (adbPath scrcpyPath : string) : Backend :=
  let adbPath := if adbPath =? EmptyString then "adb" else adbPath in
  let scrcpyPath := if scrcpyPath =? EmptyString then "scrcpy" else scrcpyPath in
  {| adbPath := adbPath; scrcpyPath := scrcpyPath;
     adbTimeout := defaultAdbTimeout; scrcpyTimeout := defaultScrcpyTimeout;
     scrcpyCmd := None; scrcpyCancel := None |}.

Import Strings.

(** [containsAny] *)
Fixpoint containsAnyIn {U : Unicode} (lower : string) (needles : list string)
    : bool :=
  match needles with
  | [] => false
  | needle :: rest =>
      if Contains lower (ToLower needle) then true else containsAnyIn lower rest
  end.

Definition containsAny {U : Unicode} (haystack : string)
    (needles : list string) : bool :=
  let lower := ToLower haystack in
  containsAnyIn lower needles.

Definition isSome {A : Type} (o : option A) : bool :=
  match o with Some _ => true | None => false end.

(** [runCommand]; the context argument is its timeout. *)
Definition runCommand (ctx : Z) (command : string) (args : list string)
    : M (string * string * option UIError) :=
  r <- cmdRun ctx command args ;;
  let outStr := TrimSpace (raw_stdout r) in
  let errStr := TrimSpace (raw_stderr r) in
  match run_err r with
  | Some err =>
      if isTimeout err || isSome (ctx_err r)
      then ret (outStr, errStr, Some (newTimeoutError command err))
      else
        let exitCode := match asExitError err with
                        | Some code => code
                        | None => 0%Z
                        end in
        ret (outStr, errStr,
             Some (newCommandFailedError command outStr errStr exitCode err))
  | None => ret (outStr, errStr, None)
  end.

(** [Backend.runAdb] *)
Definition runAdb (b : Backend) (args : list string)
    : M (string * string * option UIError) :=
  runCommand (adbTimeout b) (adbPath b) args.

(** The [for] loop of [ListDevices]; [devices] is the slice built so far.
    A nil slice is the empty list. *)
Fixpoint listDevicesLoop (stdout stderr : string) (lines : list string)
    (devices : list Device) : list Device * option UIError :=
  match lines with
  | [] => (devices, None)
  | line :: rest =>
      let line := TrimSpace line in
      if (line =? EmptyString) || HasPrefix line "List of devices attached"
      then listDevicesLoop stdout stderr rest devices
      else
        let fields := Fields line in
        if Nat.ltb (List.length fields) 2
        then ([], Some (newParseError "adb devices" stdout stderr
                          (Errorf "unexpected device line: %q" [line])))
        else listDevicesLoop stdout stderr rest
               (devices ++ [{| ID := nth 0 fields EmptyString; State := nth 1 fields EmptyString |}])
  end.

Definition newline : string := String (ascii_of_nat 10) EmptyString.

(** [Backend.ListDevices] *)
Definition ListDevices (b : Backend) : M (list Device * option UIError) :=
  res <- runAdb b ["devices"] ;;
  let '(stdout, stderr, err) := res in
  match err with
  | Some e => ret ([], Some e)
  | None =>
      let lines := Split stdout newline in
      ret (listDevicesLoop stdout stderr lines [])
  end.

(** [fmt.Sprintf("%s:%d", ip, port)] *)
Definition endpointOf (ip : string) (port : Z) : string :=
  ip ++ ":" ++ Itoa port.

(** [Backend.PairDevice] *)
Definition PairDevice {U : Unicode} (b : Backend) (ip : string) (port : Z)
    (code : string) : M (option UIError) :=
  if (ip =? EmptyString) || (port <=? 0)%Z || (code =? EmptyString)
  then ret (Some (newInvalidInputError "pair requires ip, port, and code"))
  else
    let endpoint := endpointOf ip port in
    res <- runAdb b ["pair"; endpoint; code] ;;
    let '(stdout, stderr, err) := res in
    match err with
    | Some e => ret (Some e)
    | None =>
        if containsAny stdout ["Successfully paired to"; "already paired"]
        then ret None
        else if containsAny stdout ["failed"; "error"]
        then ret (Some (newCommandFailedError "adb pair" stdout stderr 0
                          (Errorf "pair failed" [])))
        else ret (Some (newParseError "adb pair" stdout stderr
                          (Errorf "unexpected output" [])))
    end.

(** [Backend.ConnectDevice] *)
Definition ConnectDevice {U : Unicode} (b : Backend) (ip : string) (port : Z)
    : M (option UIError) :=
  if (ip =? EmptyString) || (port <=? 0)%Z
  then ret (Some (newInvalidInputError "connect requires ip and port"))
  else
    let endpoint := endpointOf ip port in
    res <- runAdb b ["connect"; endpoint] ;;
    let '(stdout, stderr, err) := res in
    match err with
    | Some e => ret (Some e)
    | None =>
        if containsAny stdout ["connected to"; "already connected"]
        then ret None
        else if containsAny stdout ["failed"; "unable"]
        then ret (Some (newCommandFailedError "adb connect" stdout stderr 0
                          (Errorf "connect failed" [])))
        else ret (Some (newParseError "adb connect" stdout stderr
                          (Errorf "unexpected output" [])))
    end.

(** [Backend.EnableTCPIP] *)
Definition EnableTCPIP {U : Unicode} (b : Backend) (port : Z)
    : M (option UIError) :=
  if (port <=? 0)%Z
  then ret (Some (newInvalidInputError "tcpip requires a port"))
  else
    res <- runAdb b ["tcpip"; Itoa port] ;;
    let '(stdout, stderr, err) := res in
    match err with
    | Some e => ret (Some e)
    | None =>
        if containsAny stdout ["restarting in TCP mode"; "already in tcp"]
        then ret None
        else ret (Some (newParseError "adb tcpip" stdout stderr
                          (Errorf "unexpected output" [])))
    end.

(** [Backend.DisconnectDevice] *)
Definition DisconnectDevice {U : Unicode} (b : Backend) (ip : string)
    (port : Z) : M (option UIError) :=
  if (ip =? EmptyString) || (port <=? 0)%Z
  then ret (Some (newInvalidInputError "disconnect requires ip and port"))
  else
    let endpoint := endpointOf ip port in
    res <- runAdb b ["disconnect"; endpoint] ;;
    let '(stdout, stderr, err) := res in
    match err with
    | Some e => ret (Some e)
    | None =>
        if containsAny stdout ["disconnected"; "no such device"]
        then ret None
        else ret (Some (newParseError "adb disconnect" stdout stderr
                          (Errorf "unexpected output" [])))
    end.

(** [buildScrcpyArgs]: the slice [args] grows by one [append] per [if]. *)
Definition buildScrcpyArgs (deviceID : string) (options : ScrcpyOptions)
    : list string :=
  let args := [] in
  let args := if negb (deviceID =? EmptyString)
              then args ++ ["-s"; deviceID] else args in
  let args := if negb (BitRate options =? EmptyString)
              then args ++ ["--bit-rate"; BitRate options] else args in
  let args := if (MaxSize options >? 0)%Z
              then args ++ ["--max-size"; Itoa (MaxSize options)] else args in
  let args := if (MaxFps options >? 0)%Z
              then args ++ ["--max-fps"; Itoa (MaxFps options)] else args in
  let args := if TurnScreenOff options
              then args ++ ["--turn-screen-off"] else args in
  let args := if Fullscreen options
              then args ++ ["--fullscreen"] else args in
  let args := if StayAwake options
              then args ++ ["--stay-awake"] else args in
  let args := if negb (Record_ options =? EmptyString)
              then args ++ ["--record"; Record_ options] else args in
  let args := if negb (WindowTitle options =? EmptyString)
              then args ++ ["--window-title"; WindowTitle options] else args in
  let args := if Nat.ltb 0 (List.length (ExtraArgs options))
              then args ++ ExtraArgs options else args in
  args.

(** ** The mirroring session: [StartScrcpy], its watcher, [StopScrcpy] *)

Module Session.

(** The backend together with the processes it started.  [live] holds the
    processes that have not ended, [watchers] the processes whose watcher
    goroutine (the [go func] of [StartScrcpy]) has not finished, [stopped]
    the processes on which a [StopScrcpy] has called [cancel] and
    [cmd.Wait()], [nextPid] the name of the next process. *)
Record World : Type := {
  backend : Backend;
  live : list nat;
  watchers : list nat;
  stopped : list nat;
  nextPid : nat
}.

Definition initial (adbPath scrcpyPath : string) : World :=
  {| backend := NewBackend adbPath scrcpyPath;
     live := []; watchers := []; stopped := []; nextPid := 0 |}.

(** The two assignments [b.scrcpyCmd = ...; b.scrcpyCancel = ...]. *)
Definition setSession (b : Backend) (cmd : option Cmd)
    (cancel : option CancelFunc) : Backend :=
  {| adbPath := adbPath b; scrcpyPath := scrcpyPath b;
     adbTimeout := adbTimeout b; scrcpyTimeout := scrcpyTimeout b;
     scrcpyCmd := cmd; scrcpyCancel := cancel |}.

(** [StartScrcpy], whose whole body runs with [mu] held.  [startErr] is
    what [cmd.Start()] returns. *)
Definition StartScrcpy (startErr : option GoError) (deviceID : string)
    (options : ScrcpyOptions) (w : World) : option UIError * World :=
  let b := backend w in
  match scrcpyCmd b with
  | Some _ =>
      (Some (newCommandFailedError "scrcpy" EmptyString EmptyString 0
               (Errorf "scrcpy already running" [])), w)
  | None =>
      let args := buildScrcpyArgs deviceID options in
      match startErr with
      | Some err =>
          (Some (newCommandFailedError "scrcpy" EmptyString EmptyString 0 err), w)
      | None =>
          let pid := nextPid w in
          let cmd := {| cmd_pid := pid; cmd_path := scrcpyPath b;
                        cmd_args := args |} in
          (None,
           {| backend := setSession b (Some cmd) (Some pid);
              live := pid :: live w;
              watchers := pid :: watchers w;
              stopped := stopped w;
              nextPid := S pid |})
      end
  end.

(** The process [pid] ends. *)
Definition processExit (pid : nat) (w : World) : World :=
  {| backend := backend w;
     live := remove Nat.eq_dec pid (live w);
     watchers := watchers w;
     stopped := stopped w;
     nextPid := nextPid w |}.

(** The critical section of the watcher of [pid], entered after its
    [cmd.Wait()] has returned. *)
Definition watcherClear (pid : nat) (w : World) : World :=
  {| backend := setSession (backend w) None None;
     live := live w;
     watchers := remove Nat.eq_dec pid (watchers w);
     stopped := stopped w;
     nextPid := nextPid w |}.

(** A [StopScrcpy] has called [cancel] and [cmd.Wait()] for [pid]. *)
Definition markStopped (pid : nat) (w : World) : World :=
  {| backend := backend w;
     live := live w;
     watchers := watchers w;
     stopped := pid :: stopped w;
     nextPid := nextPid w |}.

(** [StopScrcpy].  The handle and the cancel function are read under the
    lock and nothing is written.  With both present the function cancels
    the context and calls [cmd.Wait()] in a goroutine of its own, on the
    [Cmd] the watcher is already waiting on.  [waitReturned] tells which
    case of the [select] fires: that [Wait] has returned within the five
    seconds (the process has then ended), or it has not.  Which one
    happens is not decided by the process alone: of two [Wait]s on one
    [Cmd] one may never return although the process has ended, so the
    timeout can come with the process long gone.  In the timeout case the
    kill is sent and the end of the process is a later [processExit]. *)
Definition StopScrcpy (waitReturned : bool) (w : World)
    : option UIError * World :=
  match scrcpyCmd (backend w), scrcpyCancel (backend w) with
  | Some cmd, Some cancel =>
      if waitReturned
      then (None, processExit (cmd_pid cmd) (markStopped (cmd_pid cmd) w))
      else (Some (newTimeoutError "scrcpy" DeadlineExceeded),
            markStopped (cmd_pid cmd) w)
  | _, _ => (Some (newNotRunningError "scrcpy is not running"), w)
  end.

(** The interleavings of the calls, the process exits and the watchers;
    each constructor is one atomic step that can happen.  The watcher whose
    [Wait] is the only one on its process gets through once the process has
    ended ([step_watcher]).  After a [StopScrcpy] two [Wait]s compete on one
    [Cmd]: the watcher may get through ([step_watcher_after_stop]) or stay
    blocked, in which case its step is never taken and the handle stays
    stored. *)
Inductive step : World -> World -> Prop :=
| step_start : forall startErr deviceID options w,
    step w (snd (StartScrcpy startErr deviceID options w))
| step_stop : forall waitReturned w,
    step w (snd (StopScrcpy waitReturned w))
| step_exit : forall pid w,
    In pid (live w) -> step w (processExit pid w)
| step_watcher : forall pid w,
    In pid (watchers w) -> ~ In pid (live w) -> ~ In pid (stopped w) ->
    step w (watcherClear pid w)
| step_watcher_after_stop : forall pid w,
    In pid (watchers w) -> ~ In pid (live w) -> In pid (stopped w) ->
    step w (watcherClear pid w).

Inductive reachable : World -> Prop :=
| reach_initial : forall adbPath scrcpyPath,
    reachable (initial adbPath scrcpyPath)
| reach_step : forall w w', reachable w -> step w w' -> reachable w'.

(** What holds the model together: with no handle stored nothing is alive
    and no watcher is pending; with the handle of [pid] stored the cancel
    function is the one of [pid], its watcher is the only pending one and no
    other process is alive. *)
Definition consistent (w : World) : Prop :=
  match scrcpyCmd (backend w) with
  | None =>
      scrcpyCancel (backend w) = None /\ live w = [] /\ watchers w = []
  | Some cmd =>
      scrcpyCancel (backend w) = Some (cmd_pid cmd) /\
      watchers w = [cmd_pid cmd] /\
      (live w = [cmd_pid cmd] \/ live w = [])
  end.

End Session.

(** ** Vocabulary of the statements *)

(** Two bytes are the same letter in either case, or the same byte. *)
Definition eqFoldByte (a b : ascii) : bool :=
  Ascii.eqb a b ||
  (isUpper a && Nat.eqb (byte b) (byte a + 32)) ||
  (isUpper b && Nat.eqb (byte a) (byte b + 32)).

(** Two texts are equal up to the case of the ASCII letters. *)
Fixpoint eqFold (s t : string) : bool :=
  match s, t with
  | EmptyString, EmptyString => true
  | String a s', String b t' => eqFoldByte a b && eqFold s' t'
  | _, _ => false
  end.

(** [phrase] occurs in [s] in some letter case: a piece of [s] equals it up
    to the case of the letters. *)
Definition occursFold (phrase s : string) : Prop :=
  exists pre mid post,
    s = (pre ++ mid ++ post)%string /\ eqFold mid phrase = true.

Definition occursAnyFold (phrases : list string) (s : string) : Prop :=
  exists phrase, In phrase phrases /\ occursFold phrase s.

(** [phrase] is found in [s] the way the program looks for it: as a piece
    of the lowered [s] equal to the lowered [phrase]. *)
Definition matchesFold {U : Unicode} (phrase s : string) : Prop :=
  Contains (ToLower s) (ToLower phrase) = true.

Definition matchesAnyFold {U : Unicode} (phrases : list string) (s : string)
    : Prop :=
  exists phrase, In phrase phrases /\ matchesFold phrase s.

(** The four operations that classify the output by phrases. *)
Inductive BridgeOp : Type :=
| OpPair (ip : string) (port : Z) (code : string)
| OpConnect (ip : string) (port : Z)
| OpEnableTCPIP (port : Z)
| OpDisconnect (ip : string) (port : Z).

Definition runOp {U : Unicode} (b : Backend) (op : BridgeOp)
    : M (option UIError) :=
  match op with
  | OpPair ip port code => PairDevice b ip port code
  | OpConnect ip port => ConnectDevice b ip port
  | OpEnableTCPIP port => EnableTCPIP b port
  | OpDisconnect ip port => DisconnectDevice b ip port
  end.

(** The phrases each operation passes to its first [containsAny]. *)
Definition successPhrases (op : BridgeOp) : list string :=
  match op with
  | OpPair _ _ _ => ["Successfully paired to"; "already paired"]
  | OpConnect _ _ => ["connected to"; "already connected"]
  | OpEnableTCPIP _ => ["restarting in TCP mode"; "already in tcp"]
  | OpDisconnect _ _ => ["disconnected"; "no such device"]
  end.

(** The phrases each operation passes to its second [containsAny];
    [EnableTCPIP] and [DisconnectDevice] have no second [containsAny]. *)
Definition failurePhrases (op : BridgeOp) : list string :=
  match op with
  | OpPair _ _ _ => ["failed"; "error"]
  | OpConnect _ _ => ["failed"; "unable"]
  | OpEnableTCPIP _ => []
  | OpDisconnect _ _ => []
  end.

(** The arguments an operation hands to [runAdb]. *)
Definition adbArgs (op : BridgeOp) : list string :=
  match op with
  | OpPair ip port code => ["pair"; endpointOf ip port; code]
  | OpConnect ip port => ["connect"; endpointOf ip port]
  | OpEnableTCPIP port => ["tcpip"; Itoa port]
  | OpDisconnect ip port => ["disconnect"; endpointOf ip port]
  end.

(** Invalid input in the words of the specification: an empty address, a
    port that is not positive, an empty pairing code. *)
Definition invalidInput (op : BridgeOp) : Prop :=
  match op with
  | OpPair ip port code => ip = EmptyString \/ (port <= 0)%Z \/ code = EmptyString
  | OpConnect ip port => ip = EmptyString \/ (port <= 0)%Z
  | OpEnableTCPIP port => (port <= 0)%Z
  | OpDisconnect ip port => ip = EmptyString \/ (port <= 0)%Z
  end.

(** What the machine answers to the spawn of [op] by [b]. *)
Definition answer (b : Backend) (op : BridgeOp) (os : OS) : ProcResult :=
  respond os (spawned os)
    {| sp_timeout := adbTimeout b; sp_command := adbPath b;
       sp_args := adbArgs op |}.

(** The argument vector in the words of the specification: one segment per
    option, empty when the option is absent. *)
Definition strFlag (flag value : string) : list string :=
  if value =? EmptyString then [] else [flag; value].

Definition numFlag (flag : string) (value : Z) : list string :=
  if (0 <? value)%Z then [flag; Itoa value] else [].

Definition boolFlag (flag : string) (value : bool) : list string :=
  if value then [flag] else [].

Definition specScrcpyArgs (deviceID : string) (o : ScrcpyOptions) : list string :=
  strFlag "-s" deviceID ++
  strFlag "--bit-rate" (BitRate o) ++
  numFlag "--max-size" (MaxSize o) ++
  numFlag "--max-fps" (MaxFps o) ++
  boolFlag "--turn-screen-off" (TurnScreenOff o) ++
  boolFlag "--fullscreen" (Fullscreen o) ++
  boolFlag "--stay-awake" (StayAwake o) ++
  strFlag "--record" (Record_ o) ++
  strFlag "--window-title" (WindowTitle o) ++
  ExtraArgs o.

Definition flagNames : list string :=
  ["-s"; "--bit-rate"; "--max-size"; "--max-fps"; "--turn-screen-off";
   "--fullscreen"; "--stay-awake"; "--record"; "--window-title"].

(** No option value and no extra argument is spelled like a flag. *)
Definition hygienic (deviceID : string) (o : ScrcpyOptions) : Prop :=
  forall flag, In flag flagNames ->
    deviceID <> flag /\ BitRate o <> flag /\ Record_ o <> flag /\
    WindowTitle o <> flag /\ ~ In flag (ExtraArgs o).

(** Every byte of [s] is ASCII white space. *)
Fixpoint allSpace (s : string) : bool :=
  match s with
  | EmptyString => true
  | String c s' => isSpace c && allSpace s'
  end.

(** [s] is a sequence of runes of positive [width], read from its start. *)
Inductive runesBy (width : string -> nat) : string -> Prop :=
| runes_nil : runesBy width EmptyString
| runes_cons : forall s,
    width s <> 0 -> runesBy width (dropBytes (width s) s) -> runesBy width s.

(** [s] is made of white-space runes only, read from its start. *)
Definition leadingSpace (s : string) : Prop := runesBy spaceWidth s.

(** [s] is made of white-space runes only, read from its end. *)
Definition trailingSpace (s : string) : Prop :=
  runesBy spaceWidthRev (reverse s).

Definition allBytes : list ascii := map ascii_of_nat (seq 0 256).

(** The bytes with the given codes. *)
Definition utf8 (codes : list nat) : string :=
  string_of_list_ascii (map ascii_of_nat codes).

(** The white-space runes of [unicode.IsSpace], each in UTF-8: U+0009 to
    U+000D, U+0020, U+0085, U+00A0, U+1680, U+2000 to U+200A, U+2028,
    U+2029, U+202F, U+205F, U+3000.  The table is written apart from
    [spaceWidth], to be compared with it. *)
Definition whiteSpaceRunes : list string :=
  map utf8
    [[9]; [10]; [11]; [12]; [13]; [32];
     [194; 133]; [194; 160];
     [225; 154; 128];
     [226; 128; 128]; [226; 128; 129]; [226; 128; 130]; [226; 128; 131];
     [226; 128; 132]; [226; 128; 133]; [226; 128; 134]; [226; 128; 135];
     [226; 128; 136]; [226; 128; 137]; [226; 128; 138];
     [226; 128; 168]; [226; 128; 169]; [226; 128; 175];
     [226; 129; 159];
     [227; 128; 128]].

Definition isRune (e : string) : bool := existsb (String.eqb e) whiteSpaceRunes.

Definition concatAll (pieces : list string) : string :=
  fold_right append EmptyString pieces.

(** [s] is white-space runes one after the other. *)
Definition spaceOnly (s : string) : Prop :=
  exists runes,
    Forall (fun e => In e whiteSpaceRunes) runes /\ s = concatAll runes.

Definition beginsWithSpace (s : string) : Prop :=
  exists e, In e whiteSpaceRunes /\ HasPrefix s e = true.

Definition endsWithSpace (s : string) : Prop :=
  exists e pre, In e whiteSpaceRunes /\ s = (pre ++ e)%string.

(** No white-space rune occurs in [s]. *)
Definition noWhiteSpace (s : string) : Prop :=
  forall pre e post,
    In e whiteSpaceRunes -> s <> (pre ++ e ++ post)%string.

(** [fields] are the white-space separated fields of [s]: white space, a
    field, white space, a field, and so on; a field is not empty, holds no
    white-space rune and is followed by white space or by the end. *)
Inductive fieldsOf : string -> list string -> Prop :=
| fields_none : forall s, spaceOnly s -> fieldsOf s []
| fields_next : forall l f rest fields,
    spaceOnly l ->
    f <> EmptyString -> noWhiteSpace f ->
    rest = EmptyString \/ beginsWithSpace rest ->
    fieldsOf rest fields ->
    fieldsOf (l ++ f ++ rest) (f :: fields).

(** The pieces with [sep] between them. *)
Fixpoint joinWith (sep : string) (pieces : list string) : string :=
  match pieces with
  | [] => EmptyString
  | [p] => p
  | p :: rest => (p ++ sep ++ joinWith sep rest)%string
  end.

(** The lines of [ListDevices] that carry a device: trimmed, not empty, not
    a header. *)
Definition deviceLines (stdout : string) : list string :=
  filter (fun line => negb ((line =? EmptyString) ||
                            HasPrefix line "List of devices attached"))
         (map TrimSpace (Split stdout newline)).

Definition deviceOfLine (line : string) : Device :=
  {| ID := nth 0 (Fields line) EmptyString;
     State := nth 1 (Fields line) EmptyString |}.

(** What the machine answers to the [adb devices] of [ListDevices]. *)
Definition devicesAnswer (b : Backend) (os : OS) : ProcResult :=
  respond os (spawned os)
    {| sp_timeout := adbTimeout b; sp_command := adbPath b;
       sp_args := ["devices"] |}.

(** A machine that gives the same answer to every spawn and has run
    nothing yet. *)
Definition constOS (r : ProcResult) : OS :=
  {| respond := fun _ _ => r; spawned := [] |}.

Definition exitZero (stdout stderr : string) : ProcResult :=
  {| raw_stdout := stdout; raw_stderr := stderr;
     run_err := None; ctx_err := None |}.

Definition defaultOptions : ScrcpyOptions :=
  {| BitRate := EmptyString; MaxSize := 0; MaxFps := 0;
     TurnScreenOff := false; Fullscreen := false; StayAwake := false;
     Record_ := EmptyString; WindowTitle := EmptyString; ExtraArgs := [] |}.

(** The world after one successful [StartScrcpy] on a new backend. *)
Definition startedOnce : Session.World :=
  snd (Session.StartScrcpy None "abc123" defaultOptions
         (Session.initial EmptyString EmptyString)).

(** No white-space rune begins anywhere in [s]. *)
Fixpoint noSpace (s : string) : bool :=
  match s with
  | EmptyString => true
  | String _ s' => Nat.eqb (spaceWidth s) 0 && noSpace s'
  end.

(** The no-break space U+00A0 and the em space U+2003, in UTF-8. *)
Definition nbsp : string :=
  String (ascii_of_nat 194) (String (ascii_of_nat 160) EmptyString).

Definition emsp : string :=
  String (ascii_of_nat 226)
    (String (ascii_of_nat 128) (String (ascii_of_nat 131) EmptyString)).

(** Tables for running the program on ASCII text, where [ToLower] does not
    consult them. *)
#[global] Instance asciiText : Unicode := {| mapToLower := fun s => s |}.

(** [inner] under the wrappers [msgs], outermost first. *)
Definition wrapAll (msgs : list string) (inner : GoError) : GoError :=
  fold_right Wrapped inner msgs.


(** * Properties *)

(** ** Package [strings] *)

Module StringsFacts.

Local Open Scope string_scope.

Lemma append_nil_r (s : string) : s ++ EmptyString = s.
Proof. induction s as [|c s IH]; simpl; [reflexivity | now rewrite IH]. Qed.

Lemma append_assoc (a b c : string) : (a ++ b) ++ c = a ++ b ++ c.
Proof. induction a as [|x a IH]; simpl; [reflexivity | now rewrite IH]. Qed.

Lemma HasPrefix_spec (s p : string) :
  HasPrefix s p = true <-> exists post, s = p ++ post.
Proof.
  revert s; induction p as [|x p IH]; intros s; simpl.
  - split; [intros _; now exists s | reflexivity].
  - destruct s as [|c s]; split.
    + discriminate.
    + intros [post H]; discriminate.
    + intros H. apply andb_true_iff in H as [Hc Hp].
      apply Ascii.eqb_eq in Hc; subst c.
      apply IH in Hp as [post ->]. now exists post.
    + intros [post H]. injection H as -> ->.
      rewrite Ascii.eqb_refl. simpl. apply IH. now exists post.
Qed.

Lemma Contains_spec (s sub : string) :
  Contains s sub = true <-> exists pre post, s = pre ++ sub ++ post.
Proof.
  induction s as [|c s IH].
  - simpl. rewrite orb_false_r, HasPrefix_spec. split.
    + intros [post H]. now exists EmptyString, post.
    + intros [pre [post H]]. destruct pre; [now exists post | discriminate].
  - cbn [Contains]. rewrite orb_true_iff, HasPrefix_spec, IH. split.
    + intros [[post H] | [pre [post H]]].
      * now exists EmptyString, post.
      * exists (String c pre), post. simpl. now rewrite H.
    + intros [pre [post H]]. destruct pre as [|x pre].
      * left. now exists post.
      * right. simpl in H. injection H as _ H. now exists pre, post.
Qed.

(** *** Letter case *)

Lemma allBytes_complete (c : ascii) : In c allBytes.
Proof.
  unfold allBytes. apply in_map_iff. exists (nat_of_ascii c). split.
  - apply ascii_nat_embedding.
  - apply in_seq. pose proof (nat_ascii_bounded c). lia.
Qed.

Lemma lowerByte_eqFoldByte_table :
  forallb (fun a => forallb (fun b =>
     Bool.eqb (Ascii.eqb (lowerByte a) (lowerByte b)) (eqFoldByte a b))
     allBytes) allBytes = true.
Proof. vm_compute. reflexivity. Qed.

Lemma lowerByte_eqFoldByte (a b : ascii) :
  lowerByte a = lowerByte b <-> eqFoldByte a b = true.
Proof.
  pose proof lowerByte_eqFoldByte_table as H.
  rewrite forallb_forall in H. specialize (H a (allBytes_complete a)).
  rewrite forallb_forall in H. specialize (H b (allBytes_complete b)).
  apply Bool.eqb_prop in H. rewrite <- H. apply iff_sym, Ascii.eqb_eq.
Qed.

Lemma lowerASCII_eqFold (s t : string) :
  lowerASCII s = lowerASCII t <-> eqFold s t = true.
Proof.
  revert t; induction s as [|a s IH]; intros [|b t]; simpl;
    try (split; [reflexivity | reflexivity]);
    try (split; discriminate).
  rewrite andb_true_iff, <- IH, <- lowerByte_eqFoldByte. split.
  - intros H. injection H as H1 H2. now split.
  - intros [-> ->]. reflexivity.
Qed.

Lemma lowerASCII_app (a b : string) :
  lowerASCII (a ++ b) = lowerASCII a ++ lowerASCII b.
Proof. induction a as [|c a IH]; simpl; [reflexivity | now rewrite IH]. Qed.

Lemma lowerASCII_cut (s a b : string) :
  lowerASCII s = a ++ b ->
  exists a' b', s = a' ++ b' /\ lowerASCII a' = a /\ lowerASCII b' = b.
Proof.
  revert s; induction a as [|x a IH]; intros s H.
  - exists EmptyString, s. now simpl in *.
  - destruct s as [|c s]; [discriminate|].
    simpl in H. injection H as Hx H.
    destruct (IH _ H) as [a' [b' [-> [Ha Hb]]]].
    exists (String c a'), b'. simpl. now rewrite Hx, Ha, Hb.
Qed.

Lemma isASCII_app (a b : string) :
  isASCII (a ++ b) = isASCII a && isASCII b.
Proof.
  induction a as [|c a IH]; simpl; [reflexivity|].
  now rewrite IH, andb_assoc.
Qed.

Lemma ToLower_ascii {U : Unicode} (s : string) :
  isASCII s = true -> ToLower s = lowerASCII s.
Proof. intros H. unfold ToLower. now rewrite H. Qed.

(** On ASCII text, what [Contains] finds after lowering with [ToLower] is
    an occurrence of the phrase up to the case of the letters. *)
Lemma matchesFold_ascii {U : Unicode} (phrase s : string) :
  isASCII s = true -> isASCII phrase = true ->
  (matchesFold phrase s <-> occursFold phrase s).
Proof.
  intros Hs Hp. unfold matchesFold, occursFold.
  rewrite (ToLower_ascii s Hs), (ToLower_ascii phrase Hp), Contains_spec.
  split.
  - intros [pre [post H]].
    destruct (lowerASCII_cut _ _ _ H) as [pre' [rest [-> [Hpre Hrest]]]].
    destruct (lowerASCII_cut _ _ _ Hrest) as [mid [post' [-> [Hmid Hpost]]]].
    exists pre', mid, post'. split; [reflexivity|].
    now apply lowerASCII_eqFold.
  - intros [pre [mid [post [-> Hmid]]]].
    apply lowerASCII_eqFold in Hmid.
    exists (lowerASCII pre), (lowerASCII post).
    now rewrite !lowerASCII_app, Hmid.
Qed.


(** *** White space *)

Lemma take_drop (n : nat) (s : string) : s = takeBytes n s ++ dropBytes n s.
Proof.
  revert s; induction n as [|n IH]; intros [|c s]; simpl; try reflexivity.
  now rewrite <- IH.
Qed.

Lemma takeBytes_length (n : nat) (s : string) :
  n <= String.length s -> String.length (takeBytes n s) = n.
Proof.
  revert s; induction n as [|n IH]; intros [|c s]; simpl; intros H;
    try reflexivity; try lia.
  rewrite IH; lia.
Qed.

Lemma dropBytes_length (n : nat) (s : string) :
  String.length (dropBytes n s) = String.length s - n.
Proof.
  revert s; induction n as [|n IH]; intros [|c s]; simpl; try lia.
  apply IH.
Qed.

Lemma dropBytes_app (e r : string) :
  dropBytes (String.length e) (e ++ r) = r.
Proof. induction e as [|c e IH]; simpl; [reflexivity | exact IH]. Qed.

Lemma length_app (a b : string) :
  String.length (a ++ b) = String.length a + String.length b.
Proof. induction a as [|c a IH]; simpl; [reflexivity | now rewrite IH]. Qed.

Section TrimRunes.

Variable width : string -> nat.
Hypothesis width_le : forall s, width s <= String.length s.
Hypothesis width_app :
  forall t r, width t <> 0 -> width (t ++ r) = width t.
Hypothesis width_take :
  forall s, width s <> 0 -> width (takeBytes (width s) s) = width s.

Lemma runesBy_cons (s l : string) :
  width s <> 0 -> runesBy width l ->
  runesBy width (takeBytes (width s) s ++ l).
Proof.
  intros Hw Hl.
  assert (width (takeBytes (width s) s ++ l) = width s) as Hwl.
  { rewrite width_app; rewrite width_take; auto. }
  apply runes_cons; rewrite Hwl; [assumption|].
  rewrite <- (takeBytes_length (width s) s) at 1 by apply width_le.
  now rewrite dropBytes_app.
Qed.

Lemma trimRunes_spec (fuel : nat) :
  forall s, exists l,
    s = l ++ trimRunes width fuel s /\ runesBy width l /\
    (String.length s <= fuel -> width (trimRunes width fuel s) = 0).
Proof.
  induction fuel as [|fuel IH]; intros s; cbn [trimRunes].
  - exists EmptyString. split; [reflexivity|]. split; [constructor|].
    intros H. pose proof (width_le s). lia.
  - destruct (width s) as [|w] eqn:Hw.
    + exists EmptyString. split; [reflexivity|]. split; [constructor|].
      intros _. exact Hw.
    + destruct (IH (dropBytes (S w) s)) as [l [Hs [Hl Hz]]].
      exists (takeBytes (S w) s ++ l). split; [|split].
      * rewrite append_assoc, <- Hs. apply take_drop.
      * rewrite <- Hw. apply runesBy_cons; [lia | assumption].
      * intros Hlen. apply Hz. rewrite dropBytes_length. lia.
Qed.

End TrimRunes.

Lemma spaceWidth_le (s : string) : spaceWidth s <= String.length s.
Proof.
  destruct s as [|c [|d [|e s]]]; simpl;
    repeat match goal with |- context [if ?b then _ else _] => destruct b end;
    simpl; lia.
Qed.

Lemma spaceWidth_app (t r : string) :
  spaceWidth t <> 0 -> spaceWidth (t ++ r) = spaceWidth t.
Proof.
  destruct t as [|c [|d [|e t]]]; simpl;
    repeat match goal with |- context [if ?b then _ else _] => destruct b end;
    simpl; try reflexivity; try contradiction;
    destruct r as [|x [|y r]]; simpl;
    repeat match goal with |- context [if ?b then _ else _] => destruct b end;
    try reflexivity; try contradiction; intros H; try contradiction.
Qed.

Lemma spaceWidth_take (s : string) :
  spaceWidth s <> 0 -> spaceWidth (takeBytes (spaceWidth s) s) = spaceWidth s.
Proof.
  destruct s as [|c [|d [|e s]]]; simpl;
    repeat match goal with |- context [if ?b then _ else _] => destruct b eqn:? end;
    simpl; try contradiction; intros _;
    repeat match goal with H : _ = _ |- _ => rewrite H end; reflexivity.
Qed.

Lemma spaceWidthRev_le (s : string) : spaceWidthRev s <= String.length s.
Proof.
  destruct s as [|c [|d [|e s]]]; simpl;
    repeat match goal with |- context [if ?b then _ else _] => destruct b end;
    simpl; lia.
Qed.

Lemma spaceWidthRev_app (t r : string) :
  spaceWidthRev t <> 0 -> spaceWidthRev (t ++ r) = spaceWidthRev t.
Proof.
  destruct t as [|c [|d [|e t]]]; simpl;
    repeat match goal with |- context [if ?b then _ else _] => destruct b end;
    simpl; try reflexivity; try contradiction;
    destruct r as [|x [|y r]]; simpl;
    repeat match goal with |- context [if ?b then _ else _] => destruct b end;
    try reflexivity; try contradiction; intros H; try contradiction.
Qed.

Lemma spaceWidthRev_take (s : string) :
  spaceWidthRev s <> 0 ->
  spaceWidthRev (takeBytes (spaceWidthRev s) s) = spaceWidthRev s.
Proof.
  destruct s as [|c [|d [|e s]]]; simpl;
    repeat match goal with |- context [if ?b then _ else _] => destruct b eqn:? end;
    simpl; try contradiction; intros _;
    repeat match goal with H : _ = _ |- _ => rewrite H end; reflexivity.
Qed.

Lemma list_of_app (a b : string) :
  list_ascii_of_string (a ++ b)
  = (list_ascii_of_string a ++ list_ascii_of_string b)%list.
Proof. induction a as [|c a IH]; simpl; [reflexivity | now rewrite IH]. Qed.

Lemma string_of_app (a b : list ascii) :
  string_of_list_ascii (a ++ b)%list
  = string_of_list_ascii a ++ string_of_list_ascii b.
Proof. induction a as [|c a IH]; simpl; [reflexivity | now rewrite IH]. Qed.

Lemma reverse_involutive (s : string) : reverse (reverse s) = s.
Proof.
  unfold reverse.
  now rewrite list_ascii_of_string_of_list_ascii, rev_involutive,
    string_of_list_ascii_of_string.
Qed.

Lemma reverse_app (a b : string) : reverse (a ++ b) = reverse b ++ reverse a.
Proof.
  unfold reverse. now rewrite list_of_app, rev_app_distr, string_of_app.
Qed.

Lemma reverse_length (s : string) : String.length (reverse s) = String.length s.
Proof.
  assert (forall l, String.length (string_of_list_ascii l) = List.length l) as H1
    by (induction l as [|c l IH]; simpl; [reflexivity | now rewrite IH]).
  assert (forall t, List.length (list_ascii_of_string t) = String.length t) as H2
    by (induction t as [|c t IH]; simpl; [reflexivity | now rewrite IH]).
  unfold reverse. now rewrite H1, length_rev, H2.
Qed.

(** [TrimSpace] takes a run of white-space runes off each end and leaves a
    text that neither begins nor ends with a white-space rune. *)
Lemma TrimSpace_spec (s : string) :
  exists l r,
    s = l ++ TrimSpace s ++ r /\
    leadingSpace l /\ trailingSpace r /\
    spaceWidth (TrimSpace s) = 0 /\
    spaceWidthRev (reverse (TrimSpace s)) = 0.
Proof.
  unfold TrimSpace, trimRight, trimLeft, leadingSpace, trailingSpace.
  destruct (trimRunes_spec spaceWidth spaceWidth_le spaceWidth_app
              spaceWidth_take (String.length s) s) as [l [Hs [Hl Hz]]].
  set (t0 := trimRunes spaceWidth (String.length s) s) in *.
  destruct (trimRunes_spec spaceWidthRev spaceWidthRev_le spaceWidthRev_app
              spaceWidthRev_take (String.length t0) (reverse t0))
    as [l2 [Ht [Hl2 Hz2]]].
  set (t1 := trimRunes spaceWidthRev (String.length t0) (reverse t0)) in *.
  assert (t0 = reverse t1 ++ reverse l2) as Ht0.
  { rewrite <- reverse_app, <- Ht. symmetry. apply reverse_involutive. }
  exists l, (reverse l2). split; [|split; [|split; [|split]]].
  - now rewrite <- Ht0.
  - exact Hl.
  - now rewrite reverse_involutive.
  - destruct (spaceWidth (reverse t1)) as [|w] eqn:Hw; [reflexivity|].
    exfalso. specialize (Hz (Nat.le_refl _)).
    rewrite Ht0, spaceWidth_app in Hz; congruence.
  - rewrite reverse_involutive. apply Hz2. rewrite reverse_length. lia.
Qed.

Lemma trimRunes_allSpace (fuel : nat) :
  forall s, String.length s <= fuel -> allSpace s = true ->
            trimRunes spaceWidth fuel s = EmptyString.
Proof.
  induction fuel as [|fuel IH]; intros [|c s]; simpl; intros Hl Hs;
    try reflexivity; try lia.
  apply andb_true_iff in Hs as [Hc Hs]. rewrite Hc. simpl.
  apply IH; [lia | assumption].
Qed.

Lemma TrimSpace_allSpace (s : string) :
  allSpace s = true -> TrimSpace s = EmptyString.
Proof.
  intros H. unfold TrimSpace, trimLeft.
  now rewrite trimRunes_allSpace.
Qed.

(** *** Fields *)

#[local] Arguments spaceWidth : simpl never.

Lemma noSpace_suffixes (cur : string) :
  (forall a t, cur = a ++ t -> t <> EmptyString -> spaceWidth t = 0) ->
  noSpace cur = true.
Proof.
  induction cur as [|c cur IH]; intros H; simpl; [reflexivity|].
  apply andb_true_iff. split.
  - apply Nat.eqb_eq. apply (H EmptyString); [reflexivity | discriminate].
  - apply IH. intros a t -> Ht. apply (H (String c a)); [reflexivity | assumption].
Qed.

Lemma suffix_snoc (cur a t : string) (c : ascii) :
  cur ++ String c EmptyString = a ++ t -> t <> EmptyString ->
  exists t', t = t' ++ String c EmptyString /\ cur = a ++ t'.
Proof.
  revert cur; induction a as [|x a IH]; intros cur H Ht; simpl in H.
  - exists cur. now split.
  - destruct cur as [|y cur]; simpl in H.
    + injection H as _ H. destruct a; destruct t; try discriminate.
      contradiction.
    + injection H as -> H. destruct (IH cur H Ht) as [t' [-> ->]].
      now exists t'.
Qed.

Lemma append_not_empty (a : string) (c : ascii) :
  a ++ String c EmptyString <> EmptyString.
Proof. destruct a; discriminate. Qed.

(** Every field is a non-empty run in which no white-space rune begins. *)
Lemma fieldsFrom_wellformed (s : string) :
  forall skip cur,
    (skip <> 0 -> cur = EmptyString) ->
    (forall a t, cur = a ++ t -> t <> EmptyString -> spaceWidth (t ++ s) = 0) ->
    Forall (fun f => f <> EmptyString /\ noSpace f = true)
           (fieldsFrom skip cur s).
Proof.
  induction s as [|c s IH]; intros skip cur Hskip Hcur.
  - simpl. destruct cur as [|d cur]; constructor; [|constructor].
    split; [discriminate|]. apply noSpace_suffixes.
    intros a t Ha Ht. specialize (Hcur a t Ha Ht).
    now rewrite append_nil_r in Hcur.
  - destruct skip as [|k].
    + cbn [fieldsFrom].
      destruct (spaceWidth (String c s)) as [|w] eqn:Hw.
      * apply IH; [intros H; contradiction|].
        intros a t Ha Ht.
        destruct (suffix_snoc cur a t c Ha Ht) as [t' [-> Hc]].
        rewrite append_assoc. simpl.
        destruct t' as [|x t']; [exact Hw|].
        apply (Hcur a (String x t')); [assumption | discriminate].
      * assert (Forall (fun f => f <> EmptyString /\ noSpace f = true)
                       (fieldsFrom w EmptyString s)) as Hrest.
        { apply IH; [reflexivity|].
          intros a t Ha Ht. destruct a; destruct t; try discriminate.
          contradiction. }
        destruct cur as [|d cur]; [exact Hrest|].
        constructor; [|exact Hrest].
        split; [discriminate|]. apply noSpace_suffixes.
        intros a t Ha Ht. specialize (Hcur a t Ha Ht).
        destruct (spaceWidth t) eqn:Hz; [reflexivity|].
        rewrite spaceWidth_app in Hcur; congruence.
    + cbn [fieldsFrom]. rewrite (Hskip ltac:(discriminate)).
      apply IH; [reflexivity|].
      intros a t Ha Ht. destruct a; destruct t; try discriminate.
      contradiction.
Qed.

Lemma fieldsFrom_nonempty (s : string) :
  forall cur, cur <> EmptyString -> fieldsFrom 0 cur s <> [].
Proof.
  induction s as [|c s IH]; intros cur Hcur.
  - simpl. destruct cur; [contradiction | discriminate].
  - cbn [fieldsFrom]. destruct (spaceWidth (String c s)).
    + apply IH. apply append_not_empty.
    + destruct cur; [contradiction | discriminate].
Qed.

(** A text that is not empty and does not begin with white space has a
    field. *)
Lemma Fields_of_trimmed (s : string) :
  s <> EmptyString -> spaceWidth s = 0 -> 1 <= List.length (Fields s).
Proof.
  intros Hs Hw. destruct s as [|c s]; [contradiction|].
  unfold Fields. cbn [fieldsFrom]. rewrite Hw.
  pose proof (fieldsFrom_nonempty s (String c EmptyString)) as H.
  simpl. destruct (fieldsFrom 0 (String c EmptyString) s); [|simpl; lia].
  exfalso. apply H; [discriminate | reflexivity].
Qed.

Lemma Fields_wellformed (s : string) :
  Forall (fun f => f <> EmptyString /\ noSpace f = true) (Fields s).
Proof.
  apply fieldsFrom_wellformed; [reflexivity|].
  intros a t Ha Ht. destruct a; destruct t; try discriminate. contradiction.
Qed.

(** *** The table of white-space runes *)

Lemma isRune_In (e : string) : isRune e = true <-> In e whiteSpaceRunes.
Proof.
  unfold isRune. rewrite existsb_exists. split.
  - intros [x [Hin Hx]]. apply String.eqb_eq in Hx. now subst.
  - intros H. exists e. split; [assumption | apply String.eqb_refl].
Qed.

Lemma byte_table1 :
  forallb (fun c => implb (isSpace c) (isRune (String c EmptyString)))
          allBytes = true.
Proof. vm_compute. reflexivity. Qed.

Lemma byte_table2 :
  forallb (fun c => forallb (fun d =>
     implb (isLatin1Space c d) (isRune (String c (String d EmptyString))))
     allBytes) allBytes = true.
Proof. vm_compute. reflexivity. Qed.

Lemma byte_table3 :
  forallb (fun c => forallb (fun d => forallb (fun e =>
     implb (isWideSpace c d e)
           (isRune (String c (String d (String e EmptyString)))))
     allBytes) allBytes)
     (map ascii_of_nat [225; 226; 227]) = true.
Proof. vm_compute. reflexivity. Qed.

Lemma isSpace_rune (c : ascii) :
  isSpace c = true -> In (String c EmptyString) whiteSpaceRunes.
Proof.
  intros H. apply isRune_In.
  pose proof byte_table1 as T. rewrite forallb_forall in T.
  specialize (T c (allBytes_complete c)). now rewrite H in T.
Qed.

Lemma isLatin1Space_rune (c d : ascii) :
  isLatin1Space c d = true ->
  In (String c (String d EmptyString)) whiteSpaceRunes.
Proof.
  intros H. apply isRune_In.
  pose proof byte_table2 as T. rewrite forallb_forall in T.
  specialize (T c (allBytes_complete c)). rewrite forallb_forall in T.
  specialize (T d (allBytes_complete d)). now rewrite H in T.
Qed.

Lemma byte_eq (c : ascii) (n : nat) :
  Nat.eqb (byte c) n = true -> c = ascii_of_nat n.
Proof.
  intros H. apply Nat.eqb_eq in H. rewrite <- H. unfold byte.
  symmetry. apply ascii_nat_embedding.
Qed.

Lemma isWideSpace_lead (c d e : ascii) :
  isWideSpace c d e = true -> In c (map ascii_of_nat [225; 226; 227]).
Proof.
  unfold isWideSpace. intros H.
  repeat (apply orb_true_iff in H as [H | H]);
    repeat (apply andb_true_iff in H as [H _]);
    apply byte_eq in H; subst c; simpl; tauto.
Qed.

Lemma isWideSpace_rune (c d e : ascii) :
  isWideSpace c d e = true ->
  In (String c (String d (String e EmptyString))) whiteSpaceRunes.
Proof.
  intros H. apply isRune_In.
  pose proof byte_table3 as T. rewrite forallb_forall in T.
  specialize (T c (isWideSpace_lead c d e H)). rewrite forallb_forall in T.
  specialize (T d (allBytes_complete d)). rewrite forallb_forall in T.
  specialize (T e (allBytes_complete e)). now rewrite H in T.
Qed.

(** The white-space rune a text begins with is in the table. *)
Lemma spaceWidth_rune (s : string) :
  spaceWidth s <> 0 -> In (takeBytes (spaceWidth s) s) whiteSpaceRunes.
Proof.
  destruct s as [|c [|d [|e s]]]; unfold spaceWidth;
    repeat match goal with
           | |- context [if ?b then _ else _] => destruct b eqn:?
           end;
    cbn [takeBytes]; intros H; try contradiction;
    auto using isSpace_rune, isLatin1Space_rune, isWideSpace_rune.
Qed.

(** The white-space rune a text ends with is in the table. *)
Lemma spaceWidthRev_rune (s : string) :
  spaceWidthRev s <> 0 ->
  exists e, In e whiteSpaceRunes /\
            takeBytes (spaceWidthRev s) s = reverse e.
Proof.
  destruct s as [|c [|d [|e s]]]; unfold spaceWidthRev;
    repeat match goal with
           | |- context [if ?b then _ else _] => destruct b eqn:?
           end;
    cbn [takeBytes]; intros H; try contradiction;
    try (exists (String c EmptyString); split;
         [now apply isSpace_rune | reflexivity]);
    try (exists (String d (String c EmptyString)); split;
         [now apply isLatin1Space_rune | reflexivity]);
    try (exists (String e (String d (String c EmptyString))); split;
         [now apply isWideSpace_rune | reflexivity]).
Qed.

Lemma rune_table_widths :
  forallb (fun e => Nat.eqb (spaceWidth e) (String.length e) &&
                    Nat.eqb (spaceWidthRev (reverse e)) (String.length e) &&
                    negb (Nat.eqb (String.length e) 0))
          whiteSpaceRunes = true.
Proof. vm_compute. reflexivity. Qed.

(** A text that begins with a rune of the table begins with white space of
    that width; likewise at the end. *)
Lemma rune_spaceWidth (e r : string) :
  In e whiteSpaceRunes ->
  spaceWidth (e ++ r) = String.length e /\
  spaceWidthRev (reverse e ++ r) = String.length e /\
  String.length e <> 0.
Proof.
  intros Hin. pose proof rune_table_widths as T.
  rewrite forallb_forall in T. specialize (T e Hin).
  apply andb_true_iff in T as [T Hn]. apply andb_true_iff in T as [Hw Hr].
  apply Nat.eqb_eq in Hw, Hr. apply negb_true_iff, Nat.eqb_neq in Hn.
  split; [|split; [|assumption]].
  - rewrite spaceWidth_app; lia.
  - rewrite spaceWidthRev_app; lia.
Qed.

Lemma concatAll_app (a b : list string) :
  concatAll (a ++ b) = concatAll a ++ concatAll b.
Proof.
  induction a as [|x a IH]; simpl; [reflexivity|].
  now rewrite IH, append_assoc.
Qed.

Lemma leadingSpace_spaceOnly (s : string) : leadingSpace s -> spaceOnly s.
Proof.
  unfold leadingSpace. induction 1 as [|s Hw Hr [runes [Hall Hs]]].
  - exists []. split; [constructor | reflexivity].
  - exists (takeBytes (spaceWidth s) s :: runes). split.
    + constructor; [now apply spaceWidth_rune | assumption].
    + simpl. rewrite <- Hs. apply take_drop.
Qed.

Lemma runesRev_spaceOnly (t : string) :
  runesBy spaceWidthRev t -> spaceOnly (reverse t).
Proof.
  induction 1 as [|t Hw Hr [runes [Hall Hs]]].
  - exists []. split; [constructor | reflexivity].
  - destruct (spaceWidthRev_rune t Hw) as [e [He Ht]].
    exists (runes ++ [e])%list. split.
    + apply Forall_app. split; [assumption | now constructor].
    + rewrite concatAll_app. simpl. rewrite append_nil_r, <- Hs.
      rewrite (take_drop (spaceWidthRev t) t) at 1.
      now rewrite reverse_app, Ht, reverse_involutive.
Qed.

Lemma trailingSpace_spaceOnly (s : string) : trailingSpace s -> spaceOnly s.
Proof.
  unfold trailingSpace. intros H. apply runesRev_spaceOnly in H.
  now rewrite reverse_involutive in H.
Qed.

Lemma spaceWidth_zero_begins (s : string) :
  spaceWidth s = 0 -> ~ beginsWithSpace s.
Proof.
  intros Hz [e [Hin Hp]]. apply HasPrefix_spec in Hp as [post ->].
  destruct (rune_spaceWidth e post Hin) as [Hw [_ Hn]]. lia.
Qed.

Lemma spaceWidthRev_zero_ends (s : string) :
  spaceWidthRev (reverse s) = 0 -> ~ endsWithSpace s.
Proof.
  intros Hz [e [pre [Hin ->]]]. rewrite reverse_app in Hz.
  destruct (rune_spaceWidth e (reverse pre) Hin) as [_ [Hw Hn]]. lia.
Qed.

(** [TrimSpace] takes white-space runes, and nothing else, off the two ends
    and leaves a text that neither begins nor ends with one. *)
Lemma TrimSpace_table_spec (s : string) :
  exists l r,
    s = l ++ TrimSpace s ++ r /\
    spaceOnly l /\ spaceOnly r /\
    ~ beginsWithSpace (TrimSpace s) /\ ~ endsWithSpace (TrimSpace s).
Proof.
  destruct (TrimSpace_spec s) as [l [r [Hs [Hl [Hr [Hb He]]]]]].
  exists l, r. split; [assumption|].
  split; [now apply leadingSpace_spaceOnly|].
  split; [now apply trailingSpace_spaceOnly|].
  split; [now apply spaceWidth_zero_begins | now apply spaceWidthRev_zero_ends].
Qed.

Lemma noSpace_noWhiteSpace (s : string) :
  noSpace s = true -> noWhiteSpace s.
Proof.
  intros Hs pre e post Hin ->.
  induction pre as [|c pre IH]; simpl in Hs.
  - destruct (rune_spaceWidth e post Hin) as [Hw [_ Hn]].
    destruct (e ++ post) as [|x t] eqn:Het; [unfold spaceWidth in Hw; lia|].
    cbn [noSpace] in Hs. apply andb_true_iff in Hs as [Hz _].
    apply Nat.eqb_eq in Hz. lia.
  - apply andb_true_iff in Hs as [_ Hs]. now apply IH.
Qed.

(** *** What [Fields] and [Split] return *)

Lemma fieldsFrom_skip (s : string) :
  forall k, fieldsFrom k EmptyString s
            = fieldsFrom 0 EmptyString (dropBytes k s).
Proof.
  induction s as [|c s IH]; intros [|k]; try reflexivity.
  cbn [fieldsFrom dropBytes]. apply IH.
Qed.

Lemma fieldsFrom_word (g : string) :
  forall cur rest,
    (forall a t, g = a ++ t -> t <> EmptyString -> spaceWidth (t ++ rest) = 0) ->
    fieldsFrom 0 cur (g ++ rest) = fieldsFrom 0 (cur ++ g) rest.
Proof.
  induction g as [|c g IH]; intros cur rest Hg.
  - simpl. now rewrite append_nil_r.
  - cbn [append fieldsFrom].
    pose proof (Hg EmptyString (String c g) eq_refl ltac:(discriminate)) as H0.
    cbn [append] in H0. rewrite H0.
    rewrite IH.
    + now rewrite append_assoc.
    + intros a t -> Ht. apply (Hg (String c a)); [reflexivity | assumption].
Qed.

Lemma word_split (s : string) :
  exists g rest,
    s = g ++ rest /\
    (forall a t, g = a ++ t -> t <> EmptyString -> spaceWidth (t ++ rest) = 0) /\
    (rest = EmptyString \/ spaceWidth rest <> 0).
Proof.
  induction s as [|c s [g [rest [Hs [Hg Hr]]]]].
  - exists EmptyString, EmptyString. split; [reflexivity|]. split; [|now left].
    intros a t Ha Ht. destruct a; destruct t; try discriminate. contradiction.
  - destruct (spaceWidth (String c s)) as [|w] eqn:Hw.
    + exists (String c g), rest. split; [simpl; now rewrite Hs|]. split; [|exact Hr].
      intros a t Ha Ht. destruct a as [|x a]; simpl in Ha.
      * subst t. simpl. now rewrite <- Hs.
      * injection Ha as _ Ha. now apply (Hg a t).
    + exists EmptyString, (String c s). split; [reflexivity|]. split.
      * intros a t Ha Ht. destruct a; destruct t; try discriminate. contradiction.
      * right. lia.
Qed.

Lemma spaceOnly_cons (e s : string) :
  In e whiteSpaceRunes -> spaceOnly s -> spaceOnly (e ++ s).
Proof.
  intros He [runes [Hall ->]]. exists (e :: runes). split; [|reflexivity].
  now constructor.
Qed.

Lemma fieldsOf_prepend (e s : string) (fields : list string) :
  In e whiteSpaceRunes -> fieldsOf s fields -> fieldsOf (e ++ s) fields.
Proof.
  intros He H. destruct H as [s Hs | l f rest fields Hl Hf Hn Hr Hrest].
  - constructor. now apply spaceOnly_cons.
  - rewrite <- append_assoc. constructor; try assumption.
    now apply spaceOnly_cons.
Qed.

Lemma fieldsFrom_space (s cur : string) (w : nat) :
  spaceWidth s = S w ->
  fieldsFrom 0 cur s
  = match cur with
    | EmptyString => fieldsFrom 0 EmptyString (dropBytes (S w) s)
    | _ => cur :: fieldsFrom 0 EmptyString (dropBytes (S w) s)
    end.
Proof.
  intros Hw. destruct s as [|c s]; [discriminate|].
  cbn [fieldsFrom]. rewrite Hw. rewrite fieldsFrom_skip.
  cbn [dropBytes]. reflexivity.
Qed.

Lemma noWhiteSpace_word (g rest : string) :
  (forall a t, g = a ++ t -> t <> EmptyString -> spaceWidth (t ++ rest) = 0) ->
  noWhiteSpace g.
Proof.
  intros Hg. apply noSpace_noWhiteSpace, noSpace_suffixes.
  intros a t Ha Ht. specialize (Hg a t Ha Ht).
  destruct (spaceWidth t) eqn:Hz; [reflexivity|].
  rewrite spaceWidth_app in Hg; congruence.
Qed.

(** [Fields] returns the white-space separated fields of its argument. *)
Lemma Fields_fieldsOf_bounded (n : nat) :
  forall s, String.length s <= n -> fieldsOf s (Fields s).
Proof.
  induction n as [|n IH]; intros s Hlen.
  - destruct s; [|simpl in Hlen; lia].
    constructor. exists []. split; [constructor | reflexivity].
  - destruct (spaceWidth s) as [|w] eqn:Hw.
    + destruct (word_split s) as [g [rest [Hs [Hg Hr]]]].
      destruct g as [|c g].
      * simpl in Hs. subst rest.
        destruct Hr as [-> | Hr]; [|contradiction].
        constructor. exists []. split; [constructor | reflexivity].
      * assert (fieldsOf rest (Fields rest)) as Hrest.
        { apply IH. rewrite Hs, length_app in Hlen. simpl in Hlen. lia. }
        unfold Fields in *. rewrite Hs, fieldsFrom_word by exact Hg.
        change (EmptyString ++ String c g) with (String c g).
        destruct Hr as [-> | Hr].
        -- cbn [fieldsFrom].
           apply (fields_next EmptyString (String c g) EmptyString []).
           ++ exists []. split; [constructor | reflexivity].
           ++ discriminate.
           ++ now apply (noWhiteSpace_word (String c g) EmptyString).
           ++ now left.
           ++ exact Hrest.
        -- destruct (spaceWidth rest) as [|v] eqn:Hv; [contradiction|].
           rewrite (fieldsFrom_space rest (String c g) v Hv).
           rewrite (fieldsFrom_space rest EmptyString v Hv) in Hrest.
           apply (fields_next EmptyString (String c g) rest _).
           ++ exists []. split; [constructor | reflexivity].
           ++ discriminate.
           ++ now apply (noWhiteSpace_word (String c g) rest).
           ++ right. exists (takeBytes (spaceWidth rest) rest). split.
              ** apply spaceWidth_rune. lia.
              ** apply HasPrefix_spec. exists (dropBytes (spaceWidth rest) rest).
                 apply take_drop.
           ++ exact Hrest.
    + unfold Fields. rewrite (fieldsFrom_space s EmptyString w Hw).
      rewrite (take_drop (S w) s) at 1.
      apply fieldsOf_prepend.
      * rewrite <- Hw. apply spaceWidth_rune. lia.
      * apply IH. rewrite dropBytes_length. lia.
Qed.

Lemma Fields_fieldsOf (s : string) : fieldsOf s (Fields s).
Proof. exact (Fields_fieldsOf_bounded (String.length s) s (Nat.le_refl _)). Qed.

#[local] Arguments HasPrefix : simpl never.

Lemma Contains_newline_snoc (cur : string) (c : ascii) :
  Contains cur newline = false ->
  HasPrefix (String c EmptyString) newline = false ->
  Contains (cur ++ String c EmptyString) newline = false.
Proof.
  intros Hcur Hc. induction cur as [|x cur IH].
  - cbn [append Contains]. rewrite Hc. reflexivity.
  - cbn [append Contains] in *. apply orb_false_iff in Hcur as [Hx Hcur].
    rewrite (IH Hcur), orb_false_r.
    unfold newline in *. unfold HasPrefix in *.
    destruct (Ascii.eqb x (ascii_of_nat 10)); [discriminate | reflexivity].
Qed.

Lemma splitFrom_newline (s : string) :
  forall cur,
    Contains cur newline = false ->
    joinWith newline (splitFrom newline 0 cur s) = cur ++ s /\
    Forall (fun line => Contains line newline = false)
           (splitFrom newline 0 cur s) /\
    splitFrom newline 0 cur s <> [].
Proof.
  induction s as [|c s IH]; intros cur Hcur.
  - simpl. rewrite append_nil_r. repeat split; [now constructor | discriminate].
  - cbn [splitFrom]. destruct (HasPrefix (String c s) newline) eqn:Hp.
    + change (String.length newline - 1) with 0.
      destruct (IH EmptyString eq_refl) as [Hj [Hall Hne]].
      split; [|split; [now constructor | discriminate]].
      cbn [joinWith].
      destruct (splitFrom newline 0 EmptyString s) as [|p rest] eqn:Hsp;
        [contradiction|].
      rewrite Hj. f_equal.
      apply HasPrefix_spec in Hp as [post Hp]. unfold newline in Hp.
      simpl in Hp. injection Hp as -> ->. reflexivity.
    + assert (HasPrefix (String c EmptyString) newline = false) as Hc.
      { unfold newline, HasPrefix in *.
        destruct (Ascii.eqb c (ascii_of_nat 10)); [discriminate | reflexivity]. }
      destruct (IH (cur ++ String c EmptyString)
                   (Contains_newline_snoc cur c Hcur Hc)) as [Hj [Hall Hne]].
      split; [|split; assumption].
      rewrite Hj. now rewrite append_assoc.
Qed.

(** [Split] on the line feed cuts a text into its lines: joined by line
    feeds they give the text back, and none holds a line feed. *)
Lemma Split_lines (s : string) :
  joinWith newline (Split s newline) = s /\
  Forall (fun line => Contains line newline = false) (Split s newline).
Proof.
  destruct (splitFrom_newline s EmptyString eq_refl) as [Hj [Hall _]].
  split; assumption.
Qed.

End StringsFacts.

Example Itoa_5555 : Itoa 5555 = "5555".
Proof. reflexivity. Qed.

Example Itoa_negative : Itoa (-12) = "-12".
Proof. reflexivity. Qed.

Example TrimSpace_example :
  TrimSpace (String (ascii_of_nat 9) (" a b " ++ newline)) = "a b".
Proof. reflexivity. Qed.

Example TrimSpace_unicode_example :
  TrimSpace (nbsp ++ " a" ++ nbsp ++ "b" ++ emsp ++ nbsp ++ newline)
  = ("a" ++ nbsp ++ "b")%string.
Proof. reflexivity. Qed.

Example Split_example :
  Split ("a" ++ newline ++ newline ++ "b") newline = ["a"; EmptyString; "b"].
Proof. reflexivity. Qed.

Example Fields_example :
  Fields ("abc123" ++ String (ascii_of_nat 9) "device  x")
  = ["abc123"; "device"; "x"].
Proof. reflexivity. Qed.

Example Fields_unicode_example :
  Fields ("abc123" ++ nbsp ++ "device" ++ emsp ++ "usb:1-1")
  = ["abc123"; "device"; "usb:1-1"].
Proof. reflexivity. Qed.

(** ** Bounded command execution *)

Section RunCommand.

Variables (ctx : Z) (command : string) (args : list string) (os : OS).

Let sp : Spawn :=
  {| sp_timeout := ctx; sp_command := command; sp_args := args |}.
Let r : ProcResult := respond os (spawned os) sp.
Let os' : OS := {| respond := respond os; spawned := spawned os ++ [sp] |}.

(** [runCommand] spawns once and always hands back the two trimmed texts. *)
Lemma runCommand_outputs :
  exists e,
    runCommand ctx command args os
    = (TrimSpace (raw_stdout r), TrimSpace (raw_stderr r), e, os').
Proof.
  unfold runCommand, bind, cmdRun. fold sp. fold r. fold os'.
  destruct (run_err r) as [err|]; [|eexists; reflexivity].
  destruct (isTimeout err || isSome (ctx_err r)); eexists; reflexivity.
Qed.

Lemma runCommand_zero :
  run_err r = None ->
  runCommand ctx command args os
  = (TrimSpace (raw_stdout r), TrimSpace (raw_stderr r), None, os').
Proof.
  intros H. unfold runCommand, bind, cmdRun. fold sp. fold r. fold os'.
  now rewrite H.
Qed.

Lemma runCommand_timeout (err : GoError) :
  run_err r = Some err ->
  isTimeout err = true \/ ctx_err r <> None ->
  runCommand ctx command args os
  = (TrimSpace (raw_stdout r), TrimSpace (raw_stderr r),
     Some (newTimeoutError command err), os').
Proof.
  intros H Ht. unfold runCommand, bind, cmdRun. fold sp. fold r. fold os'.
  rewrite H.
  assert (isTimeout err || isSome (ctx_err r) = true) as ->; [|reflexivity].
  apply orb_true_iff. destruct Ht as [Ht|Ht]; [now left|right].
  destruct (ctx_err r); [reflexivity | contradiction].
Qed.

Lemma runCommand_failed (err : GoError) :
  run_err r = Some err ->
  isTimeout err = false -> ctx_err r = None ->
  runCommand ctx command args os
  = (TrimSpace (raw_stdout r), TrimSpace (raw_stderr r),
     Some (newCommandFailedError command (TrimSpace (raw_stdout r))
             (TrimSpace (raw_stderr r))
             (match asExitError err with Some c => c | None => 0%Z end) err),
     os').
Proof.
  intros H Ht Hc. unfold runCommand, bind, cmdRun. fold sp. fold r. fold os'.
  now rewrite H, Ht, Hc.
Qed.

End RunCommand.

(** ** Bridge operations *)

Section BridgeOps.

Context {U : Unicode}.

Variables (b : Backend) (op : BridgeOp) (os : OS).

Let r : ProcResult := answer b op os.
Let out : string := TrimSpace (raw_stdout r).
Let errOut : string := TrimSpace (raw_stderr r).

(** [containsAny] decides whether one of the phrases is found. *)
Lemma containsAny_spec (haystack : string) (needles : list string) :
  containsAny haystack needles = true <-> matchesAnyFold needles haystack.
Proof.
  unfold containsAny, matchesAnyFold, matchesFold.
  induction needles as [|n ns IH]; simpl.
  - split; [discriminate | intros [p [[] _]]].
  - destruct (Contains (ToLower haystack) (ToLower n)) eqn:Hn.
    + split; [intros _ | reflexivity].
      exists n. split; [now left | assumption].
    + rewrite IH. split.
      * intros [p [Hin Hp]]. exists p. split; [now right | assumption].
      * intros [p [[<-|Hin] Hp]]; [congruence | now exists p].
Qed.

Lemma containsAny_false (haystack : string) (needles : list string) :
  containsAny haystack needles = false <-> ~ matchesAnyFold needles haystack.
Proof.
  rewrite <- containsAny_spec.
  destruct (containsAny haystack needles); split; congruence.
Qed.

(** On ASCII text and ASCII phrases, to be found is to occur in some letter
    case. *)
Lemma matchesAnyFold_ascii (haystack : string) (needles : list string) :
  isASCII haystack = true ->
  forallb isASCII needles = true ->
  (matchesAnyFold needles haystack <-> occursAnyFold needles haystack).
Proof.
  intros Hh Hn. rewrite forallb_forall in Hn.
  unfold matchesAnyFold, occursAnyFold. split.
  - intros [p [Hin Hp]]. exists p. split; [assumption|].
    now apply (StringsFacts.matchesFold_ascii p haystack Hh (Hn p Hin)).
  - intros [p [Hin Hp]]. exists p. split; [assumption|].
    now apply (StringsFacts.matchesFold_ascii p haystack Hh (Hn p Hin)).
Qed.

(** The guard of each operation is the invalid input of the specification. *)
Lemma runOp_invalid :
  invalidInput op ->
  exists message, runOp b op os = (Some (newInvalidInputError message), os).
Proof.
  destruct op as [ip port code | ip port | port | ip port]; simpl;
    unfold PairDevice, ConnectDevice, EnableTCPIP, DisconnectDevice; intros H.
  - assert ((ip =? EmptyString) || (port <=? 0)%Z || (code =? EmptyString) = true) as ->.
    { destruct (String.eqb_spec ip EmptyString), (Z.leb_spec port 0),
        (String.eqb_spec code EmptyString); simpl; try reflexivity.
      exfalso. destruct H as [H|[H|H]]; [congruence | lia | congruence]. }
    eexists; reflexivity.
  - assert ((ip =? EmptyString) || (port <=? 0)%Z = true) as ->.
    { destruct (String.eqb_spec ip EmptyString), (Z.leb_spec port 0);
        simpl; try reflexivity.
      exfalso. destruct H as [H|H]; [congruence | lia]. }
    eexists; reflexivity.
  - assert ((port <=? 0)%Z = true) as -> by now apply Z.leb_le.
    eexists; reflexivity.
  - assert ((ip =? EmptyString) || (port <=? 0)%Z = true) as ->.
    { destruct (String.eqb_spec ip EmptyString), (Z.leb_spec port 0);
        simpl; try reflexivity.
      exfalso. destruct H as [H|H]; [congruence | lia]. }
    eexists; reflexivity.
Qed.

(** Past its guard an operation is one [runAdb] followed by the reading of
    its result by [k]. *)
Lemma runOp_valid :
  ~ invalidInput op ->
  exists k : string * string * option UIError -> M (option UIError),
    runOp b op os = bind (runAdb b (adbArgs op)) k os /\
    (forall so se e o, k (so, se, Some e) o = (Some e, o)) /\
    (forall so se o,
        exists command failure,
          k (so, se, None) o =
          (if containsAny so (successPhrases op) then None
           else if containsAny so (failurePhrases op)
                then Some (newCommandFailedError command so se 0 failure)
                else Some (newParseError command so se
                             (Errorf "unexpected output" [])), o)).
Proof.
  destruct op as [ip port code | ip port | port | ip port]; simpl;
    unfold PairDevice, ConnectDevice, EnableTCPIP, DisconnectDevice; intros H.
  - assert ((ip =? EmptyString) || (port <=? 0)%Z || (code =? EmptyString) = false) as ->.
    { destruct (String.eqb_spec ip EmptyString), (Z.leb_spec port 0),
        (String.eqb_spec code EmptyString); simpl; try reflexivity;
        exfalso; apply H; auto. }
    eexists. split; [reflexivity|]. split; [reflexivity|].
    intros so se o. do 2 eexists.
    destruct (containsAny so _); [reflexivity|].
    destruct (containsAny so _); reflexivity.
  - assert ((ip =? EmptyString) || (port <=? 0)%Z = false) as ->.
    { destruct (String.eqb_spec ip EmptyString), (Z.leb_spec port 0);
        simpl; try reflexivity; exfalso; apply H; auto. }
    eexists. split; [reflexivity|]. split; [reflexivity|].
    intros so se o. do 2 eexists.
    destruct (containsAny so _); [reflexivity|].
    destruct (containsAny so _); reflexivity.
  - assert ((port <=? 0)%Z = false) as -> by (apply Z.leb_gt; lia).
    eexists. split; [reflexivity|]. split; [reflexivity|].
    intros so se o. exists "adb tcpip", DeadlineExceeded.
    destruct (containsAny so _); reflexivity.
  - assert ((ip =? EmptyString) || (port <=? 0)%Z = false) as ->.
    { destruct (String.eqb_spec ip EmptyString), (Z.leb_spec port 0);
        simpl; try reflexivity; exfalso; apply H; auto. }
    eexists. split; [reflexivity|]. split; [reflexivity|].
    intros so se o. exists "adb disconnect", DeadlineExceeded.
    destruct (containsAny so _); reflexivity.
Qed.

(** After a zero exit the result is read off the trimmed stdout. *)
Lemma runOp_zero_exit :
  ~ invalidInput op ->
  run_err r = None ->
  exists command failure,
    fst (runOp b op os) =
    if containsAny out (successPhrases op) then None
    else if containsAny out (failurePhrases op)
         then Some (newCommandFailedError command out errOut 0 failure)
         else Some (newParseError command out errOut
                      (Errorf "unexpected output" [])).
Proof.
  intros Hv Hz. destruct (runOp_valid Hv) as [k [-> [_ Hk]]].
  unfold bind, runAdb. rewrite runCommand_zero by exact Hz.
  fold (answer b op os). fold r. fold out. fold errOut.
  match goal with |- context [k _ ?o] =>
    destruct (Hk out errOut o) as [command [failure ->]] end.
  now exists command, failure.
Qed.

(** When the run itself fails the error of [runCommand] is returned as it
    is. *)
Lemma runOp_run_error (err : GoError) :
  ~ invalidInput op ->
  run_err r = Some err ->
  fst (runOp b op os) =
  Some (if isTimeout err || isSome (ctx_err r)
        then newTimeoutError (adbPath b) err
        else newCommandFailedError (adbPath b) out errOut
               (match asExitError err with Some c => c | None => 0%Z end) err).
Proof.
  intros Hv He. destruct (runOp_valid Hv) as [k [-> [Hk _]]].
  unfold bind, runAdb, runCommand, bind, cmdRun.
  fold (answer b op os). fold r. rewrite He.
  destruct (isTimeout err || isSome (ctx_err r)); unfold ret; now rewrite Hk.
Qed.

End BridgeOps.

(** The phrases of the program are ASCII. *)
Lemma phrases_ascii (op : BridgeOp) :
  forallb isASCII (successPhrases op) = true /\
  forallb isASCII (failurePhrases op) = true.
Proof. destruct op; split; reflexivity. Qed.

(** ** Classification of the output *)




(** Claim C2.  On an empty address (Pair, Connect, Disconnect), a port that
    is not positive (all four operations) or an empty pairing code (Pair),
    the operation returns an error of kind [invalid_input] and the machine
    is left as it was: nothing is spawned. *)
Theorem C2_invalid_input_spawns_nothing {U : Unicode} (b : Backend)
    (op : BridgeOp) (os : OS) :
  invalidInput op ->
  exists e,
    runOp b op os = (Some e, os) /\
    Kind e = ErrorKindInvalidInput /\
    spawned (snd (runOp b op os)) = spawned os.
Proof.
  intros H. destruct (runOp_invalid b op os H) as [message Hm].
  exists (newInvalidInputError message). rewrite Hm. now repeat split.
Qed.

Lemma C2_invalid_input_spawns_nothing_witness :
  exists e,
    runOp (NewBackend EmptyString EmptyString) (OpConnect "10.0.0.7" 0)
          (constOS (exitZero "connected to 10.0.0.7:0" EmptyString))
    = (Some e, constOS (exitZero "connected to 10.0.0.7:0" EmptyString)) /\
    Kind e = ErrorKindInvalidInput /\
    spawned (snd (runOp (NewBackend EmptyString EmptyString)
                        (OpConnect "10.0.0.7" 0)
                        (constOS (exitZero "connected to 10.0.0.7:0" EmptyString))))
    = [].
Proof.
  apply (C2_invalid_input_spawns_nothing
           (NewBackend EmptyString EmptyString) (OpConnect "10.0.0.7" 0)
           (constOS (exitZero "connected to 10.0.0.7:0" EmptyString))).
  simpl. right. lia.
Defined.

(** A valid call does run adb: it calls [Run] once, on the adb path of the
    backend, under its adb timeout, with the arguments of the operation. *)
Lemma valid_input_runs_adb_once {U : Unicode} (b : Backend) (op : BridgeOp)
    (os : OS) :
  ~ invalidInput op ->
  spawned (snd (runOp b op os))
  = spawned os ++ [{| sp_timeout := adbTimeout b; sp_command := adbPath b;
                      sp_args := adbArgs op |}].
Proof.
  intros Hv. destruct (runOp_valid b op os Hv) as [k [-> [Hk1 Hk2]]].
  unfold bind, runAdb.
  destruct (runCommand_outputs (adbTimeout b) (adbPath b) (adbArgs op) os)
    as [e ->].
  destruct e as [e|].
  - now rewrite Hk1.
  - match goal with |- context [k (?so, ?se, None) ?o] =>
      destruct (Hk2 so se o) as [c [f ->]] end.
    reflexivity.
Qed.

(** Claim C6, as the code has it.  EnableTCPIP and Disconnect consult no
    failure group: after a zero exit with no success phrase found in stdout
    the result is an error of kind [parse], whatever else stdout contains,
    the words "failed", "error" and "unable" included. *)
Theorem C6_no_failure_group {U : Unicode} (b : Backend) (op : BridgeOp)
    (os : OS) :
  (exists port, op = OpEnableTCPIP port) \/
  (exists ip port, op = OpDisconnect ip port) ->
  ~ invalidInput op ->
  run_err (answer b op os) = None ->
  ~ matchesAnyFold (successPhrases op)
      (TrimSpace (raw_stdout (answer b op os))) ->
  (exists e, fst (runOp b op os) = Some e /\ Kind e = ErrorKindParse /\
             Kind e <> ErrorKindCommandFailed) /\
  (isASCII (TrimSpace (raw_stdout (answer b op os))) = true ->
   ~ occursAnyFold (successPhrases op)
       (TrimSpace (raw_stdout (answer b op os)))).
Proof.
  intros Hop Hv Hz Hs. split.
  - destruct (runOp_zero_exit b op os Hv Hz) as [command [failure Hres]].
    apply containsAny_false in Hs. rewrite Hs in Hres.
    assert (failurePhrases op = []) as Hnone
      by (destruct Hop as [[port ->] | [ip [port ->]]]; reflexivity).
    rewrite Hnone in Hres. simpl in Hres.
    eexists. split; [exact Hres|]. split; [reflexivity | discriminate].
  - intros Ha Ho. apply Hs.
    apply matchesAnyFold_ascii; [assumption | apply phrases_ascii | assumption].
Qed.

Lemma C6_no_failure_group_witness :
  exists e,
    fst (runOp (NewBackend EmptyString EmptyString)
               (OpDisconnect "10.0.0.7" 5555)
               (constOS (exitZero "error: unable to disconnect, failed"
                                  EmptyString)))
    = Some e /\ Kind e = ErrorKindParse /\ Kind e <> ErrorKindCommandFailed.
Proof.
  apply (C6_no_failure_group
           (NewBackend EmptyString EmptyString)
           (OpDisconnect "10.0.0.7" 5555)
           (constOS (exitZero "error: unable to disconnect, failed"
                              EmptyString))).
  - right. now exists "10.0.0.7", 5555%Z.
  - simpl. intros [H|H]; [discriminate | lia].
  - reflexivity.
  - apply containsAny_false. reflexivity.
Defined.

(** Claim C6 fails as stated: EnableTCPIP exits zero with "failed" in
    stdout and no success phrase, and the error is of kind [parse], not
    [command_failed]. *)
Lemma C6_counterexample :
  let b := NewBackend EmptyString EmptyString in
  let os := constOS (exitZero "failed to restart adbd" EmptyString) in
  let out := TrimSpace (raw_stdout (answer b (OpEnableTCPIP 5555) os)) in
  run_err (answer b (OpEnableTCPIP 5555) os) = None /\
  ~ occursAnyFold (successPhrases (OpEnableTCPIP 5555)) out /\
  occursFold "failed" out /\
  ~ (exists e, fst (EnableTCPIP b 5555 os) = Some e /\
               Kind e = ErrorKindCommandFailed).
Proof.
  cbv zeta. repeat split.
  - intros H. apply (matchesAnyFold_ascii (U := asciiText)) in H;
      [|reflexivity|reflexivity].
    apply containsAny_spec in H. discriminate.
  - exists EmptyString, "failed", " to restart adbd". split; reflexivity.
  - intros [e [He Hk]]. vm_compute in He. injection He as <-. discriminate.
Qed.

(** ** Outcome of one command *)

(** Claim C9.  [runCommand] returns the captured stdout and stderr, each
    with the white-space runes at its two ends removed and nothing else
    changed: what is cut off is runes of the table [whiteSpaceRunes], and
    what is left neither begins nor ends with one; after a zero exit it returns them with no error; after a
    non-zero exit that is not a timeout it returns an error of kind
    [command_failed] that carries the trimmed stdout, the trimmed stderr and
    the exit code. *)
Theorem C9_runCommand_outcome (ctx : Z) (command : string)
    (args : list string) (os : OS) :
  let r := respond os (spawned os)
             {| sp_timeout := ctx; sp_command := command; sp_args := args |} in
  let out := TrimSpace (raw_stdout r) in
  let errOut := TrimSpace (raw_stderr r) in
  let res := fst (runCommand ctx command args os) in
  fst (fst res) = out /\ snd (fst res) = errOut /\
  (exists l1 r1, raw_stdout r = (l1 ++ out ++ r1)%string /\
     spaceOnly l1 /\ spaceOnly r1 /\
     ~ beginsWithSpace out /\ ~ endsWithSpace out) /\
  (exists l2 r2, raw_stderr r = (l2 ++ errOut ++ r2)%string /\
     spaceOnly l2 /\ spaceOnly r2 /\
     ~ beginsWithSpace errOut /\ ~ endsWithSpace errOut) /\
  (run_err r = None -> snd res = None) /\
  (forall code, run_err r = Some (ExitError code) -> ctx_err r = None ->
     exists e, snd res = Some e /\ Kind e = ErrorKindCommandFailed /\
               Stdout e = out /\ Stderr e = errOut /\ ExitCode e = code /\
               Command e = command /\ Err e = Some (ExitError code)).
Proof.
  intros r out errOut res.
  destruct (runCommand_outputs ctx command args os) as [e He].
  subst res. split; [now rewrite He|]. split; [now rewrite He|].
  split; [apply StringsFacts.TrimSpace_table_spec|].
  split; [apply StringsFacts.TrimSpace_table_spec|].
  split.
  - intros Hz. now rewrite (runCommand_zero ctx command args os Hz).
  - intros code Hc Hn.
    rewrite (runCommand_failed ctx command args os (ExitError code) Hc eq_refl Hn).
    eexists. repeat split.
Qed.

Lemma C9_runCommand_outcome_witness :
  let r := {| raw_stdout := "  partial output " ++ newline;
              raw_stderr := newline ++ "adb: device offline" ++ newline;
              run_err := Some (ExitError 1); ctx_err := None |} in
  exists e,
    snd (fst (runCommand defaultAdbTimeout "adb" ["devices"] (constOS r)))
    = Some e /\ Kind e = ErrorKindCommandFailed /\
    Stdout e = "partial output" /\ Stderr e = "adb: device offline" /\
    ExitCode e = 1%Z /\ Command e = "adb" /\ Err e = Some (ExitError 1).
Proof.
  intros r.
  apply (proj2 (proj2 (proj2 (proj2 (proj2
           (C9_runCommand_outcome defaultAdbTimeout "adb" ["devices"]
              (constOS r))))))); reflexivity.
Defined.

(** Claim C3, as the code has it.  When [Run] returns an error and the
    deadline has passed or the context was cancelled ([Run] returned one of
    the two context errors, or [ctx.Err()] is not nil), the error returned
    has kind [timeout], never [command_failed], and its cause is the error
    that [Run] returned: the expiry signal when [Run] returned it, the exit
    status error when the killed process reported one. *)
Theorem C3_timeout_wraps_run_error (ctx : Z) (command : string)
    (args : list string) (os : OS) (err : GoError) :
  let r := respond os (spawned os)
             {| sp_timeout := ctx; sp_command := command; sp_args := args |} in
  run_err r = Some err ->
  isTimeout err = true \/ ctx_err r <> None ->
  exists e,
    snd (fst (runCommand ctx command args os)) = Some e /\
    Kind e = ErrorKindTimeout /\
    Kind e <> ErrorKindCommandFailed /\
    Err e = Some err /\
    Unwrap (Some e) = run_err r /\
    (isTimeout err = true -> err = DeadlineExceeded \/ err = Canceled).
Proof.
  intros r He Ht.
  rewrite (runCommand_timeout ctx command args os err He Ht).
  eexists. split; [reflexivity|]. split; [reflexivity|].
  split; [discriminate|]. split; [reflexivity|].
  split; [now rewrite He|].
  destruct err; try discriminate; auto.
Qed.

Lemma C3_timeout_wraps_run_error_witness :
  let r := {| raw_stdout := "List of devices"; raw_stderr := EmptyString;
              run_err := Some (ExitError (-1));
              ctx_err := Some DeadlineExceeded |} in
  exists e,
    snd (fst (runCommand defaultAdbTimeout "adb" ["devices"] (constOS r)))
    = Some e /\
    Kind e = ErrorKindTimeout /\
    Kind e <> ErrorKindCommandFailed /\
    Err e = Some (ExitError (-1)) /\
    Unwrap (Some e) = Some (ExitError (-1)) /\
    (isTimeout (ExitError (-1)) = true ->
     ExitError (-1) = DeadlineExceeded \/ ExitError (-1) = Canceled).
Proof.
  intros r.
  apply (C3_timeout_wraps_run_error defaultAdbTimeout "adb" ["devices"]
           (constOS r) (ExitError (-1))).
  - reflexivity.
  - right. discriminate.
Defined.

(** Claim C3 fails as stated: the deadline passes, the killed process
    reports exit status -1, and the cause of the [timeout] error is that
    exit status error, not the expiry signal [context.DeadlineExceeded]
    held by the context. *)
Lemma C3_counterexample :
  let r := {| raw_stdout := EmptyString; raw_stderr := EmptyString;
              run_err := Some (ExitError (-1));
              ctx_err := Some DeadlineExceeded |} in
  exists e,
    snd (fst (runCommand defaultAdbTimeout "adb" ["devices"] (constOS r)))
    = Some e /\
    Kind e = ErrorKindTimeout /\
    ctx_err r = Some DeadlineExceeded /\
    Err e <> Some DeadlineExceeded /\
    Err e <> Some Canceled.
Proof.
  cbv zeta. eexists. split; [reflexivity|].
  repeat split; discriminate.
Qed.

(** ** Listing the devices *)

Section ListDevicesLoop.

Variables (stdout stderr : string).

#[local] Arguments HasPrefix : simpl never.
#[local] Arguments TrimSpace : simpl never.
#[local] Arguments Fields : simpl never.

Let keep (lines : list string) : list string :=
  filter (fun line => negb ((line =? EmptyString) ||
                            HasPrefix line "List of devices attached"))
         (map TrimSpace lines).

(** With two fields on every kept line the loop appends one device per kept
    line, in order. *)
Lemma listDevicesLoop_ok (lines : list string) :
  forall devices,
    (forall line, In line (keep lines) -> 2 <= List.length (Fields line)) ->
    listDevicesLoop stdout stderr lines devices
    = (devices ++ map deviceOfLine (keep lines), None).
Proof.
  induction lines as [|l lines IH]; intros devices Hall; simpl.
  - now rewrite app_nil_r.
  - unfold keep in *. simpl in Hall |- *.
    destruct ((TrimSpace l =? EmptyString) ||
              HasPrefix (TrimSpace l) "List of devices attached") eqn:Hskip;
      rewrite ?Hskip in Hall; simpl in Hall |- *.
    + now apply IH.
    + assert (Nat.ltb (List.length (Fields (TrimSpace l))) 2 = false) as ->.
      { apply Nat.ltb_ge. apply Hall. now left. }
      rewrite IH by (intros line Hin; apply Hall; now right).
      now rewrite <- app_assoc.
Qed.

(** A kept line with fewer than two fields ends the loop with a parse error
    and no device. *)
Lemma listDevicesLoop_bad (lines : list string) :
  forall devices,
    (exists line, In line (keep lines) /\ List.length (Fields line) < 2) ->
    exists line,
      In line (keep lines) /\ List.length (Fields line) < 2 /\
      listDevicesLoop stdout stderr lines devices
      = ([], Some (newParseError "adb devices" stdout stderr
                     (Errorf "unexpected device line: %q" [line]))).
Proof.
  induction lines as [|l lines IH]; intros devices [bad [Hin Hbad]].
  - destruct Hin.
  - unfold keep in *. simpl in Hin |- *.
    destruct ((TrimSpace l =? EmptyString) ||
              HasPrefix (TrimSpace l) "List of devices attached") eqn:Hskip;
      rewrite ?Hskip in Hin; simpl in Hin |- *.
    + apply IH. now exists bad.
    + destruct (Nat.ltb (List.length (Fields (TrimSpace l))) 2) eqn:Hl.
      * exists (TrimSpace l). split; [now left|].
        split; [now apply Nat.ltb_lt | reflexivity].
      * destruct Hin as [<- | Hin]; [apply Nat.ltb_ge in Hl; lia|].
        destruct (IH (devices ++ [{| ID := nth 0 (Fields (TrimSpace l)) EmptyString;
                                     State := nth 1 (Fields (TrimSpace l)) EmptyString |}]))
          as [line [H1 [H2 H3]]]; [now exists bad|].
        exists line. split; [now right|]. now split.
Qed.

(** The only error of the loop is the parse error, and it keeps both
    texts. *)
Lemma listDevicesLoop_error (lines : list string) :
  forall devices e,
    snd (listDevicesLoop stdout stderr lines devices) = Some e ->
    Kind e = ErrorKindParse /\ Stdout e = stdout /\ Stderr e = stderr.
Proof.
  induction lines as [|l lines IH]; intros devices e; simpl.
  - discriminate.
  - destruct ((TrimSpace l =? EmptyString) ||
              HasPrefix (TrimSpace l) "List of devices attached").
    + apply IH.
    + destruct (Nat.ltb (List.length (Fields (TrimSpace l))) 2).
      * simpl. intros H. injection H as <-. now repeat split.
      * apply IH.
Qed.

End ListDevicesLoop.

(** Claim C5.  After a zero exit [ListDevices] splits the trimmed stdout
    into lines, drops the empty lines and the header lines, and turns every
    other line into the device made of its first two white-space separated
    fields; on the header, an empty line and the line "abc123<TAB>device" it
    returns the one device abc123/device and no error; a kept line with
    fewer than two fields makes the call return a parse error and no
    device.  The lines are the pieces of stdout between line feeds, the
    fields of a line are its pieces between white space, and white space
    is that of Go: the runes of [unicode.IsSpace], as in the table
    [whiteSpaceRunes]. *)
Theorem C5_ListDevices_parsing :
  fst (ListDevices (NewBackend EmptyString EmptyString)
         (constOS (exitZero
            ("List of devices attached" ++ newline ++ newline ++
             "abc123" ++ String (ascii_of_nat 9) "device" ++ newline)
            EmptyString)))
  = ([{| ID := "abc123"; State := "device" |}], None) /\
  (forall text,
      joinWith newline (Split text newline) = text /\
      Forall (fun line => Contains line newline = false)
             (Split text newline)) /\
  (forall line, fieldsOf line (Fields line)) /\
  forall (b : Backend) (os : OS),
    run_err (devicesAnswer b os) = None ->
    let stdout := TrimSpace (raw_stdout (devicesAnswer b os)) in
    ((forall line, In line (deviceLines stdout) ->
                   2 <= List.length (Fields line)) ->
     fst (ListDevices b os) = (map deviceOfLine (deviceLines stdout), None)) /\
    ((exists line, In line (deviceLines stdout) /\
                   List.length (Fields line) < 2) ->
     exists e, fst (ListDevices b os) = ([], Some e) /\
               Kind e = ErrorKindParse).
Proof.
  split; [reflexivity|].
  split; [exact StringsFacts.Split_lines|].
  split; [exact StringsFacts.Fields_fieldsOf|].
  intros b os Hz stdout.
  assert (fst (ListDevices b os)
          = listDevicesLoop stdout (TrimSpace (raw_stderr (devicesAnswer b os)))
              (Split stdout newline) []) as ->.
  { unfold ListDevices, bind, runAdb.
    now rewrite (runCommand_zero (adbTimeout b) (adbPath b) ["devices"] os Hz). }
  split.
  - intros Hall. now rewrite listDevicesLoop_ok.
  - intros Hbad.
    destruct (listDevicesLoop_bad stdout
                (TrimSpace (raw_stderr (devicesAnswer b os)))
                (Split stdout newline) [] Hbad) as [line [_ [_ ->]]].
    eexists. split; reflexivity.
Qed.

(** A listing with a line of one token only. *)
Lemma C5_ListDevices_parsing_witness :
  exists e,
    fst (ListDevices (NewBackend EmptyString EmptyString)
           (constOS (exitZero
              ("List of devices attached" ++ newline ++
               "abc123" ++ String (ascii_of_nat 9) "device" ++ newline ++
               "  emulator-5554  " ++ newline)
              EmptyString)))
    = ([], Some e) /\ Kind e = ErrorKindParse.
Proof.
  apply (proj2 (proj2 (proj2 C5_ListDevices_parsing))
           (NewBackend EmptyString EmptyString)
           (constOS (exitZero
              ("List of devices attached" ++ newline ++
               "abc123" ++ String (ascii_of_nat 9) "device" ++ newline ++
               "  emulator-5554  " ++ newline)
              EmptyString))).
  - reflexivity.
  - exists "emulator-5554". split.
    + vm_compute. right. left. reflexivity.
    + vm_compute. lia.
Defined.

(** ** What an error keeps of the output *)

Lemma invalidInput_dec (op : BridgeOp) : {invalidInput op} + {~ invalidInput op}.
Proof.
  destruct op as [ip port code | ip port | port | ip port]; simpl.
  - destruct (string_dec ip EmptyString), (Z_le_dec port 0),
      (string_dec code EmptyString); try (left; tauto).
    right. tauto.
  - destruct (string_dec ip EmptyString), (Z_le_dec port 0);
      try (left; tauto).
    right. tauto.
  - apply Z_le_dec.
  - destruct (string_dec ip EmptyString), (Z_le_dec port 0);
      try (left; tauto).
    right. tauto.
Qed.

(** The error of [ListDevices] when the run itself fails. *)
Lemma ListDevices_run_error (b : Backend) (os : OS) (err : GoError) :
  run_err (devicesAnswer b os) = Some err ->
  fst (ListDevices b os) =
  ([], Some (if isTimeout err || isSome (ctx_err (devicesAnswer b os))
             then newTimeoutError (adbPath b) err
             else newCommandFailedError (adbPath b)
                    (TrimSpace (raw_stdout (devicesAnswer b os)))
                    (TrimSpace (raw_stderr (devicesAnswer b os)))
                    (match asExitError err with Some c => c | None => 0%Z end)
                    err)).
Proof.
  intros He. unfold ListDevices, bind, runAdb, runCommand, bind, cmdRun.
  fold (devicesAnswer b os). rewrite He.
  destruct (isTimeout err || isSome (ctx_err (devicesAnswer b os))); reflexivity.
Qed.

(** Claim C10, as the code has it.  An error of kind [command_failed] or
    [parse] returned by a bridge operation carries the trimmed stdout and
    the trimmed stderr of its invocation; an error of kind [timeout] carries
    the command and the cause only, its stdout and stderr fields are
    empty. *)
Theorem C10_outputs_kept_on_failed_and_parse {U : Unicode} :
  (forall (b : Backend) (op : BridgeOp) (os : OS) (e : UIError),
      fst (runOp b op os) = Some e ->
      (Kind e = ErrorKindCommandFailed \/ Kind e = ErrorKindParse ->
       Stdout e = TrimSpace (raw_stdout (answer b op os)) /\
       Stderr e = TrimSpace (raw_stderr (answer b op os))) /\
      (Kind e = ErrorKindTimeout ->
       Stdout e = EmptyString /\ Stderr e = EmptyString /\
       Command e = adbPath b /\ Err e = run_err (answer b op os))) /\
  (forall (b : Backend) (os : OS) (e : UIError),
      snd (fst (ListDevices b os)) = Some e ->
      (Kind e = ErrorKindCommandFailed \/ Kind e = ErrorKindParse ->
       Stdout e = TrimSpace (raw_stdout (devicesAnswer b os)) /\
       Stderr e = TrimSpace (raw_stderr (devicesAnswer b os))) /\
      (Kind e = ErrorKindTimeout ->
       Stdout e = EmptyString /\ Stderr e = EmptyString /\
       Command e = adbPath b /\ Err e = run_err (devicesAnswer b os))).
Proof.
  split.
  - intros b op os e He.
    destruct (invalidInput_dec op) as [Hi|Hv].
    { destruct (runOp_invalid b op os Hi) as [m Hm].
      rewrite Hm in He. injection He as <-.
      split; [intros [H|H]; discriminate | discriminate]. }
    destruct (run_err (answer b op os)) as [err|] eqn:Hr.
    + rewrite (runOp_run_error b op os err Hv Hr) in He. injection He as <-.
      destruct (isTimeout err || isSome (ctx_err (answer b op os))); simpl.
      * split; [intros [H|H]; discriminate | now repeat split].
      * split; [now repeat split | discriminate].
    + destruct (runOp_zero_exit b op os Hv Hr) as [c [f Hres]].
      rewrite Hres in He.
      destruct (containsAny _ (successPhrases op)); [discriminate|].
      destruct (containsAny _ (failurePhrases op)); injection He as <-; simpl;
        (split; [now repeat split | discriminate]).
  - intros b os e He.
    destruct (run_err (devicesAnswer b os)) as [err|] eqn:Hr.
    + rewrite (ListDevices_run_error b os err Hr) in He. simpl in He.
      injection He as <-.
      destruct (isTimeout err || isSome (ctx_err (devicesAnswer b os))); simpl.
      * split; [intros [H|H]; discriminate | now repeat split].
      * split; [now repeat split | discriminate].
    + unfold ListDevices, bind, runAdb in He.
      rewrite (runCommand_zero (adbTimeout b) (adbPath b) ["devices"] os Hr) in He.
      simpl in He. apply listDevicesLoop_error in He.
      destruct He as [Hk [Ho He]].
      split; [intros _; now split | rewrite Hk; discriminate].
Qed.

Lemma C10_outputs_kept_on_failed_and_parse_witness :
  let b := NewBackend EmptyString EmptyString in
  let os := constOS (exitZero " failed to connect to 10.0.0.7:5555 "
                              "adb: no route to host") in
  let e := newCommandFailedError "adb connect"
             "failed to connect to 10.0.0.7:5555" "adb: no route to host" 0
             (Errorf "connect failed" []) in
  (Kind e = ErrorKindCommandFailed \/ Kind e = ErrorKindParse ->
   Stdout e = TrimSpace (raw_stdout (answer b (OpConnect "10.0.0.7" 5555) os)) /\
   Stderr e = TrimSpace (raw_stderr (answer b (OpConnect "10.0.0.7" 5555) os))) /\
  (Kind e = ErrorKindTimeout ->
   Stdout e = EmptyString /\ Stderr e = EmptyString /\
   Command e = adbPath b /\
   Err e = run_err (answer b (OpConnect "10.0.0.7" 5555) os)).
Proof.
  intros b os e.
  apply (proj1 C10_outputs_kept_on_failed_and_parse b
           (OpConnect "10.0.0.7" 5555) os e).
  reflexivity.
Defined.

(** Claim C10 fails as stated: Pair runs into the deadline after adb has
    written to both streams, and the [timeout] error returned holds neither
    text. *)
Lemma C10_counterexample :
  let b := NewBackend EmptyString EmptyString in
  let r := {| raw_stdout := "Enter pairing code: ";
              raw_stderr := "adb: waiting for device";
              run_err := Some DeadlineExceeded;
              ctx_err := Some DeadlineExceeded |} in
  exists e,
    fst (PairDevice b "192.168.1.5" 5555 "482913" (constOS r)) = Some e /\
    Kind e = ErrorKindTimeout /\
    TrimSpace (raw_stdout r) = "Enter pairing code:" /\
    TrimSpace (raw_stderr r) = "adb: waiting for device" /\
    Stdout e = EmptyString /\ Stderr e = EmptyString /\
    Stdout e <> TrimSpace (raw_stdout r) /\
    Stderr e <> TrimSpace (raw_stderr r).
Proof.
  cbv zeta. eexists. split; [reflexivity|].
  repeat split; discriminate.
Qed.

(** ** The argument vector of the mirroring tool *)

Section ScrcpyArgs.

#[local] Arguments Itoa : simpl never.

Lemma append_if (c : bool) (args seg : list string) :
  (if c then args ++ seg else args) = args ++ (if c then seg else []).
Proof. destruct c; [reflexivity | now rewrite app_nil_r]. Qed.

(** The chain of [append]s is the concatenation of the segments. *)
Lemma buildScrcpyArgs_spec (deviceID : string) (o : ScrcpyOptions) :
  buildScrcpyArgs deviceID o = specScrcpyArgs deviceID o.
Proof.
  unfold buildScrcpyArgs, specScrcpyArgs, strFlag, numFlag, boolFlag.
  rewrite !Z.gtb_ltb, !append_if, <- !app_assoc. simpl.
  repeat match goal with
         | |- context [negb (?s =? EmptyString)] =>
             destruct (s =? EmptyString); simpl
         end.
  all: repeat (f_equal; try reflexivity).
  all: destruct (ExtraArgs o); reflexivity.
Qed.

Lemma In_strFlag (x flag value : string) :
  In x (strFlag flag value) <->
  value <> EmptyString /\ (flag = x \/ value = x).
Proof.
  unfold strFlag. destruct (String.eqb_spec value EmptyString); simpl.
  - split; [intros [] | intros [H _]; contradiction].
  - tauto.
Qed.

Lemma In_numFlag (x flag : string) (value : Z) :
  In x (numFlag flag value) <->
  (0 < value)%Z /\ (flag = x \/ Itoa value = x).
Proof.
  unfold numFlag. destruct (Z.ltb_spec 0 value); simpl.
  - tauto.
  - split; [intros [] | intros [H' _]; lia].
Qed.

Lemma In_boolFlag (x flag : string) (value : bool) :
  In x (boolFlag flag value) <-> value = true /\ flag = x.
Proof.
  unfold boolFlag. destruct value; simpl.
  - tauto.
  - split; [intros [] | intros [H _]; discriminate].
Qed.

(** The numeral of a positive number begins with a digit, not with the
    dash of a flag. *)
Lemma Itoa_positive_no_dash (n : Z) (s : string) :
  (0 < n)%Z -> Itoa n <> String "-" s.
Proof.
  intros Hn. destruct n as [|p|p]; try lia.
  unfold Itoa. simpl.
  destruct (Pos.to_uint p); simpl; discriminate.
Qed.

End ScrcpyArgs.

(** Unfolds membership in the segments and closes the case of a flag met
    somewhere else than in its own segment. *)
Ltac flag_cases Hh flag :=
  let H := fresh "Hmem" in
  rewrite buildScrcpyArgs_spec; unfold specScrcpyArgs;
  rewrite !in_app_iff, !In_strFlag, !In_numFlag, !In_boolFlag;
  destruct (Hh flag) as (? & ? & ? & ? & ?); [simpl; tauto|];
  split;
  [ intros H;
    repeat match goal with
           | H : _ \/ _ |- _ => destruct H
           | H : _ /\ _ |- _ => destruct H
           end;
    try assumption; try congruence; try discriminate;
    try (exfalso; eapply Itoa_positive_no_dash; eassumption);
    try contradiction
  | intros H; tauto ].

(** Claim C8.  The argument vector is the concatenation, in the order of the
    code, of one segment per option followed by the extra arguments as they
    are; the segment of the device selector is "-s" and the identifier when
    the identifier is not empty, the segment of a string option is its flag
    and the string when the string is not empty, the segment of a numeric
    option is its flag and the numeral when the number is positive, the
    segment of a boolean option is its flag when the option is true, and
    every other segment is empty.  When no value and no extra argument is
    itself spelled like a flag, each flag is in the vector exactly when its
    option is present. *)
Theorem C8_args_follow_options (deviceID : string) (o : ScrcpyOptions) :
  let args := buildScrcpyArgs deviceID o in
  args = specScrcpyArgs deviceID o /\
  (exists generated, args = generated ++ ExtraArgs o) /\
  (hygienic deviceID o ->
   (In "-s" args <-> deviceID <> EmptyString) /\
   (In "--bit-rate" args <-> BitRate o <> EmptyString) /\
   (In "--max-size" args <-> (0 < MaxSize o)%Z) /\
   (In "--max-fps" args <-> (0 < MaxFps o)%Z) /\
   (In "--turn-screen-off" args <-> TurnScreenOff o = true) /\
   (In "--fullscreen" args <-> Fullscreen o = true) /\
   (In "--stay-awake" args <-> StayAwake o = true) /\
   (In "--record" args <-> Record_ o <> EmptyString) /\
   (In "--window-title" args <-> WindowTitle o <> EmptyString)).
Proof.
  intros args. subst args.
  split; [apply buildScrcpyArgs_spec|]. split.
  - rewrite buildScrcpyArgs_spec. unfold specScrcpyArgs.
    eexists. rewrite !app_assoc. reflexivity.
  - intros Hh.
    split; [flag_cases Hh "-s"|].
    split; [flag_cases Hh "--bit-rate"|].
    split; [flag_cases Hh "--max-size"|].
    split; [flag_cases Hh "--max-fps"|].
    split; [flag_cases Hh "--turn-screen-off"|].
    split; [flag_cases Hh "--fullscreen"|].
    split; [flag_cases Hh "--stay-awake"|].
    split; [flag_cases Hh "--record"|].
    flag_cases Hh "--window-title".
Qed.

Lemma C8_args_follow_options_witness :
  let o := {| BitRate := "8M"; MaxSize := 1024; MaxFps := 0;
              TurnScreenOff := true; Fullscreen := false; StayAwake := false;
              Record_ := EmptyString; WindowTitle := "Phone";
              ExtraArgs := ["--no-audio"] |} in
  buildScrcpyArgs "abc123" o
  = ["-s"; "abc123"; "--bit-rate"; "8M"; "--max-size"; "1024";
     "--turn-screen-off"; "--window-title"; "Phone"; "--no-audio"] /\
  (In "--max-fps" (buildScrcpyArgs "abc123" o) <-> (0 < 0)%Z) /\
  (In "--record" (buildScrcpyArgs "abc123" o) <-> EmptyString <> EmptyString).
Proof.
  intros o.
  destruct (C8_args_follow_options "abc123" o) as [Heq [_ Hmem]].
  split; [rewrite Heq; reflexivity|].
  assert (hygienic "abc123" o) as Hh.
  { intros flag Hin. simpl in Hin.
    repeat match goal with
           | H : _ \/ _ |- _ => destruct H as [<- | H]
           end; try contradiction;
      (repeat split; try discriminate; simpl; intros [K|[]]; discriminate). }
  destruct (Hmem Hh) as (_ & _ & _ & Hfps & _ & _ & _ & Hrec & _).
  split; assumption.
Defined.

(** ** The mirroring session *)

Module SessionFacts.

Import Session.

Lemma remove_single (pid : nat) : remove Nat.eq_dec pid [pid] = [].
Proof. simpl. destruct (Nat.eq_dec pid pid); [reflexivity | contradiction]. Qed.

Lemma watcherClear_consistent (pid : nat) (w : World) :
  consistent w -> In pid (watchers w) -> ~ In pid (live w) ->
  consistent (watcherClear pid w).
Proof.
  unfold consistent. intros Hc Hin Hnot. simpl.
  destruct (scrcpyCmd (backend w)) as [cmd|].
  - destruct Hc as [Hcancel [Hw Hl]].
    rewrite Hw in Hin |- *. destruct Hin as [<- | []].
    rewrite remove_single.
    destruct Hl as [Hl | Hl]; [|auto].
    exfalso. apply Hnot. rewrite Hl. now left.
  - destruct Hc as [Hcancel [Hl Hw]]. rewrite Hw in Hin. destruct Hin.
Qed.

(** Every step keeps the world consistent. *)
Lemma step_consistent (w w' : World) :
  consistent w -> step w w' -> consistent w'.
Proof.
  intros Hc Hs.
  destruct Hs as [startErr deviceID options w | waitReturned w | pid w Hin
                 | pid w Hin Hnot Hsole | pid w Hin Hnot Hstop];
    try (now apply watcherClear_consistent).
  - unfold consistent in *. unfold StartScrcpy.
    destruct (scrcpyCmd (backend w)) as [cmd|] eqn:Hcmd; simpl.
    + now rewrite Hcmd.
    + destruct startErr as [err|]; simpl.
      * now rewrite Hcmd.
      * destruct Hc as [_ [-> ->]]. auto.
  - unfold consistent in *. unfold StopScrcpy.
    destruct (scrcpyCmd (backend w)) as [cmd|] eqn:Hcmd; simpl.
    + destruct (scrcpyCancel (backend w)) as [cancel|] eqn:Hcan; simpl.
      * destruct waitReturned; simpl; rewrite Hcmd.
        -- destruct Hc as [Hcancel [Hw Hl]].
           split; [congruence|]. split; [assumption|].
           destruct Hl as [-> | ->]; right;
             [apply remove_single | reflexivity].
        -- rewrite Hcan. exact Hc.
      * rewrite Hcmd, Hcan. exact Hc.
    + now rewrite Hcmd.
  - unfold consistent in *. simpl.
    destruct (scrcpyCmd (backend w)) as [cmd|].
    + destruct Hc as [Hcancel [Hw Hl]]. repeat split; auto.
      destruct Hl as [Hl | Hl]; rewrite Hl in Hin |- *.
      * destruct Hin as [<- | []]. right. apply remove_single.
      * destruct Hin.
    + destruct Hc as [Hcancel [Hl Hw]]. rewrite Hl in Hin. destruct Hin.
Qed.

Lemma reachable_consistent (w : World) : reachable w -> consistent w.
Proof.
  induction 1 as [adb scr | w w' Hr IH Hs].
  - unfold consistent. simpl. auto.
  - exact (step_consistent w w' IH Hs).
Qed.

End SessionFacts.

Section SessionClaims.

Import Session.

(** Claim C4.  In every reachable world at most one session process is
    alive, and it is the one whose handle is stored.  [StartScrcpy] called
    with a handle stored fails with kind [command_failed] and changes
    nothing, the stored handle and cancel function included; [StopScrcpy]
    called with no handle stored fails with kind [not_running] and changes
    nothing. *)
Theorem C4_single_session :
  (forall w, reachable w ->
     List.length (live w) <= 1 /\
     (forall pid, In pid (live w) ->
        exists cmd, scrcpyCmd (backend w) = Some cmd /\ cmd_pid cmd = pid)) /\
  (forall w cmd startErr deviceID options,
     scrcpyCmd (backend w) = Some cmd ->
     exists e, StartScrcpy startErr deviceID options w = (Some e, w) /\
               Kind e = ErrorKindCommandFailed) /\
  (forall w waitReturned,
     scrcpyCmd (backend w) = None ->
     exists e, StopScrcpy waitReturned w = (Some e, w) /\
               Kind e = ErrorKindNotRunning).
Proof.
  split; [|split].
  - intros w Hr. apply SessionFacts.reachable_consistent in Hr.
    unfold consistent in Hr.
    destruct (scrcpyCmd (backend w)) as [cmd|].
    + destruct Hr as [_ [_ [Hl | Hl]]]; rewrite Hl; simpl; split; auto.
      * intros pid [<- | []]. now exists cmd.
      * intros pid [].
    + destruct Hr as [_ [Hl _]]. rewrite Hl. simpl. split; auto.
      intros pid [].
  - intros w cmd startErr deviceID options Hcmd.
    unfold StartScrcpy. rewrite Hcmd. eexists. split; reflexivity.
  - intros w waitReturned Hcmd.
    unfold StopScrcpy. rewrite Hcmd. eexists. split; reflexivity.
Qed.

Lemma startedOnce_reachable : reachable startedOnce.
Proof.
  unfold startedOnce. eapply reach_step; [apply reach_initial | apply step_start].
Qed.

Lemma C4_single_session_witness :
  List.length (live startedOnce) <= 1 /\
  (exists e, StartScrcpy None "emulator-5554" defaultOptions startedOnce
             = (Some e, startedOnce) /\
             Kind e = ErrorKindCommandFailed) /\
  (exists e, StopScrcpy true (initial EmptyString EmptyString)
             = (Some e, initial EmptyString EmptyString) /\
             Kind e = ErrorKindNotRunning).
Proof.
  destruct C4_single_session as [Hone [Hstart Hstop]].
  split; [|split].
  - apply (Hone startedOnce). apply startedOnce_reachable.
  - apply (Hstart startedOnce
             {| cmd_pid := 0; cmd_path := "scrcpy";
                cmd_args := ["-s"; "abc123"] |}).
    reflexivity.
  - apply Hstop. reflexivity.
Defined.

(** Claim C7.  With a handle stored and no [StopScrcpy] called on the
    session, once the process has ended on its own the watcher, whose
    [Wait] is the only one on the process, takes its step; the step clears
    the handle and the cancel function, the world is back to idle, and the
    next [StartScrcpy] whose spawn works returns no error and stores a new
    handle. *)
Theorem C7_watcher_returns_to_idle (w : World) (cmd : Cmd) :
  reachable w ->
  scrcpyCmd (backend w) = Some cmd ->
  ~ In (cmd_pid cmd) (stopped w) ->
  let exited := processExit (cmd_pid cmd) w in
  let idle := watcherClear (cmd_pid cmd) exited in
  (In (cmd_pid cmd) (live w) -> step w exited) /\
  ~ In (cmd_pid cmd) (stopped exited) /\
  step exited idle /\
  scrcpyCmd (backend idle) = None /\
  scrcpyCancel (backend idle) = None /\
  live idle = [] /\ watchers idle = [] /\
  reachable idle /\
  forall deviceID options,
    fst (StartScrcpy None deviceID options idle) = None /\
    exists cmd',
      scrcpyCmd (backend (snd (StartScrcpy None deviceID options idle)))
      = Some cmd'.
Proof.
  intros Hr Hcmd Hsole exited idle.
  pose proof (SessionFacts.reachable_consistent w Hr) as Hc.
  unfold consistent in Hc. rewrite Hcmd in Hc.
  destruct Hc as [Hcancel [Hw Hl]].
  assert (live exited = []) as Hdead.
  { subst exited. simpl.
    destruct Hl as [-> | ->]; [apply SessionFacts.remove_single | reflexivity]. }
  assert (step exited idle) as Hstep.
  { apply step_watcher.
    - subst exited. simpl. rewrite Hw. now left.
    - rewrite Hdead. intros [].
    - exact Hsole. }
  assert (exited = w \/ step w exited) as Hex.
  { destruct Hl as [Hl | Hl].
    - right. apply step_exit. rewrite Hl. now left.
    - left. subst exited. unfold processExit. rewrite Hl. simpl.
      destruct w; simpl in *. now rewrite Hl. }
  split; [intros Hin; now apply step_exit|].
  split; [exact Hsole|].
  split; [exact Hstep|].
  split; [reflexivity|]. split; [reflexivity|].
  split; [exact Hdead|].
  split; [subst idle exited; simpl; rewrite Hw; apply SessionFacts.remove_single|].
  split.
  - eapply reach_step; [|exact Hstep].
    destruct Hex as [-> | Hs]; [exact Hr | eapply reach_step; eassumption].
  - intros deviceID options. split; [reflexivity|].
    eexists. reflexivity.
Qed.

Lemma C7_watcher_returns_to_idle_witness :
  let idle := watcherClear 0 (processExit 0 startedOnce) in
  step (processExit 0 startedOnce) idle /\
  scrcpyCmd (backend idle) = None /\
  scrcpyCancel (backend idle) = None /\
  fst (StartScrcpy None "abc123" defaultOptions idle) = None.
Proof.
  intros idle.
  destruct (C7_watcher_returns_to_idle startedOnce
              {| cmd_pid := 0; cmd_path := "scrcpy";
                 cmd_args := ["-s"; "abc123"] |}
              startedOnce_reachable eq_refl)
    as (_ & _ & Hstep & Hcmd & Hcancel & _ & _ & _ & Hstart).
  - intros [].
  - split; [exact Hstep|]. split; [exact Hcmd|]. split; [exact Hcancel|].
    apply Hstart.
Defined.

End SessionClaims.

(** * Further properties of the code *)

(** ** [errors.go] *)

Section ErrorsFacts.

(** The text of an error is never empty: it is the message when there is
    one; without a message it is the kind, a colon, a space and the command
    when there is a command, and the kind alone otherwise; a nil receiver
    gives the literal for nil. *)
Theorem Error_never_empty :
  Error None = "<nil>" /\
  forall e : UIError,
    Error (Some e) <> EmptyString /\
    (Message e <> EmptyString -> Error (Some e) = Message e) /\
    (Message e = EmptyString -> Command e <> EmptyString ->
     Error (Some e) = (ErrorKind_string (Kind e) ++ ": " ++ Command e)%string) /\
    (Message e = EmptyString -> Command e = EmptyString ->
     Error (Some e) = ErrorKind_string (Kind e)).
Proof.
  split; [reflexivity|]. intros e. unfold Error.
  destruct (String.eqb_spec (Message e) EmptyString) as [Hm|Hm]; simpl.
  - destruct (String.eqb_spec (Command e) EmptyString) as [Hc|Hc]; simpl.
    + split; [destruct (Kind e); discriminate|].
      split; [intros H; contradiction|].
      split; [intros _ H; contradiction | reflexivity].
    + split; [destruct (Kind e); discriminate|].
      split; [intros H; contradiction|].
      split; [reflexivity | intros _ H; contradiction].
  - split; [assumption|]. split; [reflexivity|].
    split; intros H; contradiction.
Qed.

Lemma Error_never_empty_witness :
  Error (Some {| Kind := ErrorKindParse; Message := EmptyString;
                 Command := "adb pair"; Stdout := EmptyString;
                 Stderr := EmptyString; ExitCode := 0; Err := None |})
  = "parse: adb pair".
Proof.
  apply (proj1 (proj2 (proj2 (proj2 Error_never_empty
           {| Kind := ErrorKindParse; Message := EmptyString;
              Command := "adb pair"; Stdout := EmptyString;
              Stderr := EmptyString; ExitCode := 0; Err := None |}))));
    [reflexivity | discriminate].
Defined.

(** The exit code is found through any number of wrappers. *)
Lemma asExitError_wrapAll (msgs : list string) (code : Z) :
  asExitError (wrapAll msgs (ExitError code)) = Some code.
Proof. induction msgs as [|m msgs IH]; simpl; [reflexivity | exact IH]. Qed.

Lemma asExitError_wrapAll_none (msgs : list string) (inner : GoError) :
  asExitError inner = None -> asExitError (wrapAll msgs inner) = None.
Proof. intros H. induction msgs as [|m msgs IH]; simpl; assumption. Qed.

Lemma isTimeout_wrapAll (msgs : list string) (inner : GoError) :
  msgs <> [] -> isTimeout (wrapAll msgs inner) = false.
Proof. destruct msgs; [contradiction | reflexivity]. Qed.

End ErrorsFacts.

(** ** [runCommand] *)

Section RunCommandMore.

Variables (ctx : Z) (command : string) (args : list string) (os : OS).

Let r : ProcResult :=
  respond os (spawned os)
    {| sp_timeout := ctx; sp_command := command; sp_args := args |}.

(** [runCommand] fails exactly when [Run] fails; its error is of kind
    [timeout] or [command_failed], names the command and keeps the error of
    [Run] as its cause. *)
Theorem runCommand_error_wraps_cause :
  (snd (fst (runCommand ctx command args os)) = None <-> run_err r = None) /\
  forall e, snd (fst (runCommand ctx command args os)) = Some e ->
    (Kind e = ErrorKindTimeout \/ Kind e = ErrorKindCommandFailed) /\
    Command e = command /\
    Unwrap (Some e) = run_err r /\ run_err r <> None.
Proof.
  unfold runCommand, bind, cmdRun. fold r.
  destruct (run_err r) as [err|] eqn:Hr.
  - destruct (isTimeout err || isSome (ctx_err r)); simpl.
    + split; [split; discriminate|].
      intros e H. injection H as <-. simpl. repeat split; auto. discriminate.
    + split; [split; discriminate|].
      intros e H. injection H as <-. simpl. repeat split; auto. discriminate.
  - simpl. split; [split; reflexivity | discriminate].
Qed.

(** A context error that comes wrapped in another error is not recognised
    by [isTimeout]; unless the context itself reports an error the failure
    is a [command_failed] with exit code 0. *)
Theorem runCommand_wrapped_context_error (msgs : list string) (inner : GoError) :
  msgs <> [] ->
  inner = DeadlineExceeded \/ inner = Canceled ->
  run_err r = Some (wrapAll msgs inner) ->
  ctx_err r = None ->
  exists e,
    snd (fst (runCommand ctx command args os)) = Some e /\
    Kind e = ErrorKindCommandFailed /\ ExitCode e = 0%Z.
Proof.
  intros Hm Hi Hr Hc.
  rewrite (runCommand_failed ctx command args os _ Hr
             (isTimeout_wrapAll msgs inner Hm) Hc).
  eexists. split; [reflexivity|]. split; [reflexivity|]. simpl.
  rewrite asExitError_wrapAll_none; [reflexivity|].
  destruct Hi as [-> | ->]; reflexivity.
Qed.

(** After a failure that is not a timeout the exit code reported is the one
    of the exit status error, however deeply it is wrapped, and 0 when the
    failure was made by [fmt.Errorf] and holds no exit status. *)
Theorem runCommand_exit_code (msgs : list string) :
  ctx_err r = None ->
  (forall code, run_err r = Some (wrapAll msgs (ExitError code)) ->
     exists e, snd (fst (runCommand ctx command args os)) = Some e /\
               Kind e = ErrorKindCommandFailed /\ ExitCode e = code) /\
  (forall format fargs, run_err r = Some (wrapAll msgs (Errorf format fargs)) ->
     exists e, snd (fst (runCommand ctx command args os)) = Some e /\
               Kind e = ErrorKindCommandFailed /\ ExitCode e = 0%Z).
Proof.
  intros Hc. split.
  - intros code Hr.
    assert (isTimeout (wrapAll msgs (ExitError code)) = false) as Ht
      by (destruct msgs; reflexivity).
    rewrite (runCommand_failed ctx command args os _ Hr Ht Hc).
    eexists. split; [reflexivity|]. split; [reflexivity|]. simpl.
    now rewrite asExitError_wrapAll.
  - intros format fargs Hr.
    assert (isTimeout (wrapAll msgs (Errorf format fargs)) = false) as Ht
      by (destruct msgs; reflexivity).
    rewrite (runCommand_failed ctx command args os _ Hr Ht Hc).
    eexists. split; [reflexivity|]. split; [reflexivity|]. simpl.
    now rewrite asExitError_wrapAll_none.
Qed.

End RunCommandMore.

Lemma runCommand_error_wraps_cause_witness :
  let r := {| raw_stdout := EmptyString; raw_stderr := "adb: not found";
              run_err := Some (Wrapped "exec: adb" (Errorf "executable file not found in $PATH" []));
              ctx_err := None |} in
  (Kind (newCommandFailedError "adb" EmptyString "adb: not found" 0
           (Wrapped "exec: adb" (Errorf "executable file not found in $PATH" [])))
   = ErrorKindTimeout \/
   Kind (newCommandFailedError "adb" EmptyString "adb: not found" 0
           (Wrapped "exec: adb" (Errorf "executable file not found in $PATH" [])))
   = ErrorKindCommandFailed) /\
  Command (newCommandFailedError "adb" EmptyString "adb: not found" 0
             (Wrapped "exec: adb" (Errorf "executable file not found in $PATH" [])))
  = "adb" /\
  Unwrap (Some (newCommandFailedError "adb" EmptyString "adb: not found" 0
                  (Wrapped "exec: adb" (Errorf "executable file not found in $PATH" []))))
  = run_err r /\
  run_err r <> None.
Proof.
  intros r.
  apply (proj2 (runCommand_error_wraps_cause defaultAdbTimeout "adb"
                  ["devices"] (constOS r))).
  reflexivity.
Defined.

Lemma runCommand_wrapped_context_error_witness :
  let r := {| raw_stdout := EmptyString; raw_stderr := EmptyString;
              run_err := Some (Wrapped "wait" DeadlineExceeded);
              ctx_err := None |} in
  exists e,
    snd (fst (runCommand defaultAdbTimeout "adb" ["devices"] (constOS r)))
    = Some e /\ Kind e = ErrorKindCommandFailed /\ ExitCode e = 0%Z.
Proof.
  intros r.
  apply (runCommand_wrapped_context_error defaultAdbTimeout "adb" ["devices"]
           (constOS r) ["wait"] DeadlineExceeded).
  - discriminate.
  - now left.
  - reflexivity.
  - reflexivity.
Defined.

Lemma runCommand_exit_code_witness :
  let r := {| raw_stdout := EmptyString; raw_stderr := "error: closed";
              run_err := Some (Wrapped "adb" (Wrapped "run" (ExitError 255)));
              ctx_err := None |} in
  exists e,
    snd (fst (runCommand defaultAdbTimeout "adb" ["devices"] (constOS r)))
    = Some e /\ Kind e = ErrorKindCommandFailed /\ ExitCode e = 255%Z.
Proof.
  intros r.
  apply (proj1 (runCommand_exit_code defaultAdbTimeout "adb" ["devices"]
                  (constOS r) ["adb"; "run"] eq_refl) 255%Z).
  reflexivity.
Defined.

(** ** The bridge operations as a whole *)

Section BridgeOutcome.

Context {U : Unicode}.

Variables (b : Backend) (op : BridgeOp) (os : OS).

Let r : ProcResult := answer b op os.
Let out : string := TrimSpace (raw_stdout r).
Let errOut : string := TrimSpace (raw_stderr r).

(** The three ways an operation ends. *)
Lemma runOp_outcome :
  (invalidInput op /\
   exists message, fst (runOp b op os) = Some (newInvalidInputError message)) \/
  (~ invalidInput op /\
   exists err, run_err r = Some err /\
     fst (runOp b op os) =
     Some (if isTimeout err || isSome (ctx_err r)
           then newTimeoutError (adbPath b) err
           else newCommandFailedError (adbPath b) out errOut
                  (match asExitError err with Some c => c | None => 0%Z end) err)) \/
  (~ invalidInput op /\ run_err r = None /\
   exists command failure,
     fst (runOp b op os) =
     if containsAny out (successPhrases op) then None
     else if containsAny out (failurePhrases op)
          then Some (newCommandFailedError command out errOut 0 failure)
          else Some (newParseError command out errOut
                       (Errorf "unexpected output" []))).
Proof.
  destruct (invalidInput_dec op) as [Hi|Hv].
  - left. split; [assumption|].
    destruct (runOp_invalid b op os Hi) as [m ->]. now exists m.
  - right. destruct (run_err r) as [err|] eqn:Hr.
    + left. split; [assumption|]. exists err. split; [reflexivity|].
      exact (runOp_run_error b op os err Hv Hr).
    + right. split; [assumption|]. split; [reflexivity|].
      exact (runOp_zero_exit b op os Hv Hr).
Qed.

(** An operation reports success exactly when its input is valid, the
    process has exited with status zero and a success phrase is found in
    the trimmed stdout; on ASCII output, exactly when such a phrase occurs
    in it in some letter case. *)
Theorem runOp_success_iff :
  (fst (runOp b op os) = None <->
   ~ invalidInput op /\ run_err r = None /\
   matchesAnyFold (successPhrases op) out) /\
  (isASCII out = true ->
   (fst (runOp b op os) = None <->
    ~ invalidInput op /\ run_err r = None /\
    occursAnyFold (successPhrases op) out)).
Proof.
  assert (fst (runOp b op os) = None <->
          ~ invalidInput op /\ run_err r = None /\
          matchesAnyFold (successPhrases op) out) as Hgen.
  { destruct runOp_outcome
      as [[Hi [m Hm]] | [[Hv [err [Hr He]]] | [Hv [Hr [c [f Hz]]]]]].
    - rewrite Hm. split; [discriminate | intros [Hv _]; contradiction].
    - rewrite He. split; [discriminate | intros [_ [H _]]; congruence].
    - rewrite Hz. destruct (containsAny out (successPhrases op)) eqn:Hs.
      + split; [intros _ | reflexivity].
        repeat split; auto. now apply containsAny_spec.
      + apply containsAny_false in Hs.
        split; [|intros [_ [_ H]]; contradiction].
        destruct (containsAny out (failurePhrases op)); discriminate. }
  split; [exact Hgen|].
  intros Ha. rewrite Hgen.
  rewrite (matchesAnyFold_ascii out (successPhrases op) Ha
             (proj1 (phrases_ascii op))).
  reflexivity.
Qed.

(** An operation reports [parse] exactly when its input is valid, the
    process has exited with status zero and neither a success phrase nor a
    failure phrase of the operation is found in the trimmed stdout; on
    ASCII output, exactly when no such phrase occurs in it in any letter
    case. *)
Theorem runOp_parse_iff :
  ((exists e, fst (runOp b op os) = Some e /\ Kind e = ErrorKindParse) <->
   ~ invalidInput op /\ run_err r = None /\
   ~ matchesAnyFold (successPhrases op) out /\
   ~ matchesAnyFold (failurePhrases op) out) /\
  (isASCII out = true ->
   ((exists e, fst (runOp b op os) = Some e /\ Kind e = ErrorKindParse) <->
    ~ invalidInput op /\ run_err r = None /\
    ~ occursAnyFold (successPhrases op) out /\
    ~ occursAnyFold (failurePhrases op) out)).
Proof.
  assert ((exists e, fst (runOp b op os) = Some e /\ Kind e = ErrorKindParse) <->
          ~ invalidInput op /\ run_err r = None /\
          ~ matchesAnyFold (successPhrases op) out /\
          ~ matchesAnyFold (failurePhrases op) out) as Hgen.
  { destruct runOp_outcome
      as [[Hi [m Hm]] | [[Hv [err [Hr He]]] | [Hv [Hr [c [f Hz]]]]]].
    - rewrite Hm. split.
      + intros [e [H Hk]]. injection H as <-. discriminate.
      + intros [Hv _]. contradiction.
    - rewrite He. split.
      + intros [e [H Hk]]. injection H as <-.
        destruct (isTimeout err || isSome (ctx_err r)); discriminate.
      + intros [_ [H _]]. congruence.
    - rewrite Hz.
      destruct (containsAny out (successPhrases op)) eqn:Hs;
        [|destruct (containsAny out (failurePhrases op)) eqn:Hf].
      + apply containsAny_spec in Hs. split.
        * intros [e [H _]]. discriminate.
        * intros [_ [_ [H _]]]. contradiction.
      + apply containsAny_spec in Hf. split.
        * intros [e [H Hk]]. injection H as <-. discriminate.
        * intros [_ [_ [_ H]]]. contradiction.
      + apply containsAny_false in Hs. apply containsAny_false in Hf. split.
        * intros _. now repeat split.
        * intros _. eexists. split; reflexivity. }
  split; [exact Hgen|].
  intros Ha. rewrite Hgen.
  rewrite (matchesAnyFold_ascii out (successPhrases op) Ha
             (proj1 (phrases_ascii op))).
  rewrite (matchesAnyFold_ascii out (failurePhrases op) Ha
             (proj2 (phrases_ascii op))).
  reflexivity.
Qed.

(** The kinds of error an operation can return: [invalid_input] exactly on
    invalid input, [timeout] only when [Run] has failed, never
    [not_running]; an error with a non-zero exit code is a [command_failed]
    made from the failure of [Run]. *)
Theorem runOp_error_kinds (e : UIError) :
  fst (runOp b op os) = Some e ->
  (Kind e = ErrorKindInvalidInput <-> invalidInput op) /\
  (Kind e = ErrorKindTimeout -> run_err r <> None) /\
  Kind e <> ErrorKindNotRunning /\
  (ExitCode e <> 0%Z ->
   Kind e = ErrorKindCommandFailed /\ Unwrap (Some e) = run_err r).
Proof.
  destruct runOp_outcome as [[Hi [m Hm]] | [[Hv [err [Hr He]]] | [Hv [Hr [c [f Hz]]]]]].
  - rewrite Hm. intros H. injection H as <-. simpl.
    split; [tauto|]. split; [discriminate|]. split; [discriminate|].
    intros H. contradiction.
  - rewrite He. intros H. injection H as <-.
    destruct (isTimeout err || isSome (ctx_err r)); simpl.
    + split; [split; [discriminate | contradiction]|].
      split; [intros _; congruence|]. split; [discriminate|].
      intros H; contradiction.
    + split; [split; [discriminate | contradiction]|].
      split; [discriminate|]. split; [discriminate|].
      intros _. split; [reflexivity | now rewrite Hr].
  - rewrite Hz.
    destruct (containsAny out (successPhrases op)); [discriminate|].
    destruct (containsAny out (failurePhrases op)); intros H;
      injection H as <-; simpl;
      (split; [split; [discriminate | contradiction]|]);
      (split; [discriminate|]); (split; [discriminate|]);
      intros H; contradiction.
Qed.

(** When [Run] fails the operation returns the error of [runCommand] and
    does not look at stdout: a success phrase printed by a process that then
    fails or is killed does not turn the call into a success. *)
Theorem runOp_run_failure_hides_stdout (err : GoError) :
  ~ invalidInput op ->
  run_err r = Some err ->
  exists e,
    fst (runOp b op os) = Some e /\
    (Kind e = ErrorKindTimeout \/ Kind e = ErrorKindCommandFailed) /\
    Command e = adbPath b /\
    Unwrap (Some e) = Some err.
Proof.
  intros Hv Hr. rewrite (runOp_run_error b op os err Hv Hr).
  destruct (isTimeout err || isSome (ctx_err (answer b op os)));
    eexists; (split; [reflexivity|]); simpl.
  - split; [now left | split; reflexivity].
  - split; [now right | split; reflexivity].
Qed.

End BridgeOutcome.

Lemma runOp_success_iff_witness :
  fst (runOp (NewBackend EmptyString EmptyString)
             (OpDisconnect "10.0.0.7" 5555)
             (constOS (exitZero "error: No Such Device '10.0.0.7:5555'"
                                EmptyString)))
  = None.
Proof.
  apply (proj2 (proj2 (runOp_success_iff (NewBackend EmptyString EmptyString)
                  (OpDisconnect "10.0.0.7" 5555)
                  (constOS (exitZero "error: No Such Device '10.0.0.7:5555'"
                                     EmptyString))) eq_refl)).
  split; [|split].
  - simpl. intros [H|H]; [discriminate | lia].
  - reflexivity.
  - exists "no such device". split; [right; now left|].
    exists "error: ", "No Such Device", " '10.0.0.7:5555'".
    split; reflexivity.
Defined.

Lemma runOp_parse_iff_witness :
  exists e,
    fst (runOp (NewBackend EmptyString EmptyString)
               (OpConnect "10.0.0.7" 5555)
               (constOS (exitZero "* daemon started successfully" EmptyString)))
    = Some e /\ Kind e = ErrorKindParse.
Proof.
  apply (proj2 (proj1 (runOp_parse_iff (NewBackend EmptyString EmptyString)
                  (OpConnect "10.0.0.7" 5555)
                  (constOS (exitZero "* daemon started successfully"
                                     EmptyString))))).
  split; [|split; [|split]].
  - simpl. intros [H|H]; [discriminate | lia].
  - reflexivity.
  - apply containsAny_false. reflexivity.
  - apply containsAny_false. reflexivity.
Defined.

Lemma runOp_error_kinds_witness :
  let r := {| raw_stdout := "connected to 10.0.0.7:5555";
              raw_stderr := "adb: killed";
              run_err := Some (ExitError 137); ctx_err := None |} in
  let e := newCommandFailedError "adb" "connected to 10.0.0.7:5555"
             "adb: killed" 137 (ExitError 137) in
  (Kind e = ErrorKindInvalidInput <-> invalidInput (OpConnect "10.0.0.7" 5555)) /\
  (Kind e = ErrorKindTimeout -> run_err r <> None) /\
  Kind e <> ErrorKindNotRunning /\
  (ExitCode e <> 0%Z ->
   Kind e = ErrorKindCommandFailed /\ Unwrap (Some e) = run_err r).
Proof.
  intros r e.
  apply (runOp_error_kinds (NewBackend EmptyString EmptyString)
           (OpConnect "10.0.0.7" 5555) (constOS r) e).
  reflexivity.
Defined.

Lemma runOp_run_failure_hides_stdout_witness :
  let r := {| raw_stdout := "connected to 10.0.0.7:5555";
              raw_stderr := EmptyString;
              run_err := Some (ExitError 1); ctx_err := None |} in
  exists e,
    fst (runOp (NewBackend EmptyString EmptyString)
               (OpConnect "10.0.0.7" 5555) (constOS r)) = Some e /\
    (Kind e = ErrorKindTimeout \/ Kind e = ErrorKindCommandFailed) /\
    Command e = "adb" /\
    Unwrap (Some e) = Some (ExitError 1).
Proof.
  intros r.
  apply (runOp_run_failure_hides_stdout (NewBackend EmptyString EmptyString)
           (OpConnect "10.0.0.7" 5555) (constOS r) (ExitError 1)).
  - simpl. intros [H|H]; [discriminate | lia].
  - reflexivity.
Defined.

Lemma valid_input_runs_adb_once_witness :
  spawned (snd (runOp (NewBackend EmptyString EmptyString)
                      (OpPair "192.168.1.5" 37215 "482913")
                      (constOS (exitZero "Successfully paired to 192.168.1.5:37215"
                                         EmptyString))))
  = [{| sp_timeout := 10000000000; sp_command := "adb";
        sp_args := ["pair"; "192.168.1.5:37215"; "482913"] |}].
Proof.
  apply (valid_input_runs_adb_once (NewBackend EmptyString EmptyString)
           (OpPair "192.168.1.5" 37215 "482913")
           (constOS (exitZero "Successfully paired to 192.168.1.5:37215"
                              EmptyString))).
  simpl. intros [H|[H|H]]; [discriminate | lia | discriminate].
Defined.

(** ** [containsAny] *)

(** ASCII text before and after an ASCII haystack does not hide a phrase; a
    phrase list with the empty phrase matches every haystack, and the empty
    list matches none. *)
Theorem containsAny_embedded {U : Unicode} (haystack : string)
    (needles : list string) :
  (forall pre post,
      isASCII pre = true -> isASCII haystack = true -> isASCII post = true ->
      containsAny haystack needles = true ->
      containsAny (pre ++ haystack ++ post) needles = true) /\
  (In EmptyString needles -> containsAny haystack needles = true) /\
  containsAny haystack [] = false.
Proof.
  split; [|split].
  - intros pre post Hpre Hh Hpost H.
    apply containsAny_spec in H. apply containsAny_spec.
    destruct H as [p [Hin Hm]]. exists p. split; [assumption|].
    unfold matchesFold in *.
    rewrite (StringsFacts.ToLower_ascii haystack Hh) in Hm.
    rewrite StringsFacts.ToLower_ascii
      by (rewrite !StringsFacts.isASCII_app, Hpre, Hh, Hpost; reflexivity).
    rewrite !StringsFacts.lowerASCII_app.
    apply StringsFacts.Contains_spec in Hm as [a [z Hm]].
    apply StringsFacts.Contains_spec.
    exists (lowerASCII pre ++ a)%string, (z ++ lowerASCII post)%string.
    rewrite Hm. now rewrite !StringsFacts.append_assoc.
  - intros Hin. apply containsAny_spec. exists EmptyString.
    split; [assumption|]. unfold matchesFold.
    apply StringsFacts.Contains_spec.
    exists EmptyString, (ToLower haystack). reflexivity.
  - reflexivity.
Qed.

Lemma containsAny_embedded_witness :
  containsAny ("adb: " ++ "Already Connected" ++ " to 10.0.0.7:5555")
              ["connected to"; "already connected"] = true.
Proof.
  apply (proj1 (containsAny_embedded "Already Connected"
                  ["connected to"; "already connected"]));
    reflexivity.
Defined.

(** ** More on [ListDevices] *)

Section FieldsFacts.

#[local] Arguments HasPrefix : simpl never.
#[local] Arguments TrimSpace : simpl never.
#[local] Arguments Fields : simpl never.

(** A line kept by [ListDevices] is trimmed, not empty, and has a field. *)
Lemma deviceLines_field (stdout line : string) :
  In line (deviceLines stdout) ->
  line <> EmptyString /\ 1 <= List.length (Fields line).
Proof.
  unfold deviceLines. intros H. apply filter_In in H as [Hin Hkeep].
  apply in_map_iff in Hin as [l [<- _]].
  apply negb_true_iff, orb_false_iff in Hkeep as [Hne _].
  apply String.eqb_neq in Hne. split; [assumption|].
  apply StringsFacts.Fields_of_trimmed; [assumption|].
  destruct (StringsFacts.TrimSpace_spec l) as [a [z [_ [_ [_ [Hf _]]]]]].
  exact Hf.
Qed.

Lemma lines_dichotomy (lines : list string) :
  (forall line, In line lines -> 2 <= List.length (Fields line)) \/
  (exists line, In line lines /\ List.length (Fields line) < 2).
Proof.
  induction lines as [|l lines [IH | [bad [Hin Hbad]]]].
  - left. intros line [].
  - destruct (Nat.ltb_spec (List.length (Fields l)) 2) as [Hl | Hl].
    + right. exists l. split; [now left | assumption].
    + left. intros line [<- | Hin]; [assumption | now apply IH].
  - right. exists bad. split; [now right | assumption].
Qed.

End FieldsFacts.

Section ListDevicesMore.

#[local] Arguments TrimSpace : simpl never.
#[local] Arguments Fields : simpl never.

Variables (b : Backend) (os : OS).

Let stdout : string := TrimSpace (raw_stdout (devicesAnswer b os)).
Let stderr : string := TrimSpace (raw_stderr (devicesAnswer b os)).

Lemma ListDevices_zero :
  run_err (devicesAnswer b os) = None ->
  fst (ListDevices b os)
  = listDevicesLoop stdout stderr (Split stdout newline) [].
Proof.
  intros Hz. unfold ListDevices, bind, runAdb.
  now rewrite (runCommand_zero (adbTimeout b) (adbPath b) ["devices"] os Hz).
Qed.

(** [ListDevices] never returns devices together with an error: the
    devices parsed before a malformed line are dropped, and nothing is
    parsed when [Run] fails. *)
Theorem ListDevices_error_has_no_devices (e : UIError) :
  snd (fst (ListDevices b os)) = Some e ->
  fst (fst (ListDevices b os)) = [] /\
  (Kind e = ErrorKindParse <-> run_err (devicesAnswer b os) = None) /\
  Kind e <> ErrorKindInvalidInput /\ Kind e <> ErrorKindNotRunning.
Proof.
  destruct (run_err (devicesAnswer b os)) as [err|] eqn:Hr.
  - rewrite (ListDevices_run_error b os err Hr). simpl.
    intros H. injection H as <-.
    destruct (isTimeout err || isSome (ctx_err (devicesAnswer b os))); simpl;
      (split; [reflexivity|]); (split; [split; discriminate|]);
      split; discriminate.
  - rewrite (ListDevices_zero Hr). intros He.
    destruct (lines_dichotomy (deviceLines stdout)) as [Hok | Hbad].
    + unfold deviceLines in Hok.
      rewrite (listDevicesLoop_ok stdout stderr _ [] Hok) in He. discriminate.
    + unfold deviceLines in Hbad.
      destruct (listDevicesLoop_bad stdout stderr _ [] Hbad)
        as [line [_ [_ Hl]]].
      rewrite Hl in He |- *. simpl in *. injection He as <-. simpl.
      split; [reflexivity|]. split; [split; reflexivity|].
      split; discriminate.
Qed.

(** Output made of white space only, the empty output included, is an
    empty listing and no error. *)
Theorem ListDevices_blank_output :
  run_err (devicesAnswer b os) = None ->
  allSpace (raw_stdout (devicesAnswer b os)) = true ->
  fst (ListDevices b os) = ([], None).
Proof.
  intros Hz Hs. rewrite (ListDevices_zero Hz).
  subst stdout. rewrite (StringsFacts.TrimSpace_allSpace _ Hs). reflexivity.
Qed.

(** On success every device has an identifier and a state that are not
    empty and in which no white-space rune occurs, and there is one device
    per kept line. *)
Theorem ListDevices_devices_wellformed (devices : list Device) :
  fst (ListDevices b os) = (devices, None) ->
  run_err (devicesAnswer b os) = None /\
  devices = map deviceOfLine (deviceLines stdout) /\
  Forall (fun d => ID d <> EmptyString /\ State d <> EmptyString /\
                   noWhiteSpace (ID d) /\ noWhiteSpace (State d))
         devices.
Proof.
  destruct (run_err (devicesAnswer b os)) as [err|] eqn:Hr.
  { rewrite (ListDevices_run_error b os err Hr). discriminate. }
  rewrite (ListDevices_zero Hr). intros Hd.
  destruct (lines_dichotomy (deviceLines stdout)) as [Hok | Hbad].
  - pose proof Hok as Hok'. unfold deviceLines in Hok'.
    rewrite (listDevicesLoop_ok stdout stderr _ [] Hok') in Hd.
    simpl in Hd. injection Hd as <-.
    split; [reflexivity|]. split; [reflexivity|].
    apply Forall_forall. intros d Hin.
    apply in_map_iff in Hin as [line [<- Hin]].
    specialize (Hok line Hin).
    pose proof (StringsFacts.Fields_wellformed line) as Hwf.
    rewrite Forall_forall in Hwf.
    destruct (Hwf (nth 0 (Fields line) EmptyString)) as [H0 H0']
      ; [apply nth_In; lia|].
    destruct (Hwf (nth 1 (Fields line) EmptyString)) as [H1 H1']
      ; [apply nth_In; lia|].
    unfold deviceOfLine. simpl.
    repeat split; try assumption; now apply StringsFacts.noSpace_noWhiteSpace.
  - unfold deviceLines in Hbad.
    destruct (listDevicesLoop_bad stdout stderr _ [] Hbad) as [line [_ [_ Hl]]].
    rewrite Hl in Hd. discriminate.
Qed.

(** After a zero exit [ListDevices] fails exactly when some kept line
    consists of a single token; a kept line is never without a token. *)
Theorem ListDevices_parse_error_iff :
  run_err (devicesAnswer b os) = None ->
  (snd (fst (ListDevices b os)) <> None <->
   exists line, In line (deviceLines stdout) /\
                List.length (Fields line) = 1).
Proof.
  intros Hz. rewrite (ListDevices_zero Hz).
  destruct (lines_dichotomy (deviceLines stdout)) as [Hok | Hbad].
  - pose proof Hok as Hok'. unfold deviceLines in Hok'.
    rewrite (listDevicesLoop_ok stdout stderr _ [] Hok'). simpl.
    split; [intros H; contradiction|].
    intros [line [Hin Hone]]. specialize (Hok line Hin). lia.
  - destruct Hbad as [bad [Hin Hlt]].
    pose proof (deviceLines_field stdout bad Hin) as [_ Hge].
    assert (exists line, In line (deviceLines stdout) /\
                         List.length (Fields line) < 2) as Hbad
      by (exists bad; now split).
    unfold deviceLines in Hbad.
    destruct (listDevicesLoop_bad stdout stderr _ [] Hbad) as [line [_ [_ Hl]]].
    rewrite Hl. simpl. split; [|discriminate].
    intros _. exists bad. split; [assumption | lia].
Qed.

End ListDevicesMore.

Lemma ListDevices_error_has_no_devices_witness :
  let os := constOS (exitZero ("abc123" ++ String (ascii_of_nat 9) "device"
                               ++ newline ++ "emulator-5554")
                              EmptyString) in
  let e := newParseError "adb devices"
             ("abc123" ++ String (ascii_of_nat 9) "device"
              ++ newline ++ "emulator-5554")
             EmptyString
             (Errorf "unexpected device line: %q" ["emulator-5554"]) in
  fst (fst (ListDevices (NewBackend EmptyString EmptyString) os)) = [] /\
  (Kind e = ErrorKindParse <->
   run_err (devicesAnswer (NewBackend EmptyString EmptyString) os) = None) /\
  Kind e <> ErrorKindInvalidInput /\ Kind e <> ErrorKindNotRunning.
Proof.
  intros os e.
  apply (ListDevices_error_has_no_devices
           (NewBackend EmptyString EmptyString) os e).
  reflexivity.
Defined.

Lemma ListDevices_blank_output_witness :
  fst (ListDevices (NewBackend EmptyString EmptyString)
         (constOS (exitZero (newline ++ "  " ++ newline) "daemon started")))
  = ([], None).
Proof.
  apply (ListDevices_blank_output (NewBackend EmptyString EmptyString)
           (constOS (exitZero (newline ++ "  " ++ newline) "daemon started")));
    reflexivity.
Defined.

Lemma ListDevices_devices_wellformed_witness :
  let os := constOS (exitZero
              ("List of devices attached" ++ newline ++
               "abc123" ++ nbsp ++ "device usb:1-1 product:sdk" ++ newline ++
               "10.0.0.7:5555" ++ String (ascii_of_nat 9) "offline" ++ newline)
              EmptyString) in
  let devices := [{| ID := "abc123"; State := "device" |};
                  {| ID := "10.0.0.7:5555"; State := "offline" |}] in
  run_err (devicesAnswer (NewBackend EmptyString EmptyString) os) = None /\
  devices = map deviceOfLine
              (deviceLines (TrimSpace (raw_stdout
                 (devicesAnswer (NewBackend EmptyString EmptyString) os)))) /\
  Forall (fun d => ID d <> EmptyString /\ State d <> EmptyString /\
                   noWhiteSpace (ID d) /\ noWhiteSpace (State d))
         devices.
Proof.
  intros os devices.
  apply (ListDevices_devices_wellformed
           (NewBackend EmptyString EmptyString) os devices).
  reflexivity.
Defined.

Lemma ListDevices_parse_error_iff_witness :
  let os := constOS (exitZero ("abc123" ++ String (ascii_of_nat 9) "device"
                               ++ newline ++ "emulator-5554")
                              EmptyString) in
  snd (fst (ListDevices (NewBackend EmptyString EmptyString) os)) <> None.
Proof.
  intros os.
  apply (proj2 (ListDevices_parse_error_iff
                  (NewBackend EmptyString EmptyString) os eq_refl)).
  exists "emulator-5554". split.
  - vm_compute. right. now left.
  - reflexivity.
Defined.

Lemma ListDevices_run_error_witness :
  let r := {| raw_stdout := "abc123" ++ String (ascii_of_nat 9) "device";
              raw_stderr := "adb: server killed";
              run_err := Some (ExitError 1); ctx_err := None |} in
  fst (ListDevices (NewBackend EmptyString EmptyString) (constOS r))
  = ([], Some (newCommandFailedError "adb"
                 ("abc123" ++ String (ascii_of_nat 9) "device")
                 "adb: server killed" 1 (ExitError 1))).
Proof.
  intros r.
  apply (ListDevices_run_error (NewBackend EmptyString EmptyString)
           (constOS r) (ExitError 1)).
  reflexivity.
Defined.

(** ** More on [buildScrcpyArgs] *)

Section ScrcpyArgsMore.

#[local] Arguments Itoa : simpl never.

Variables (deviceID : string) (o : ScrcpyOptions).

(** With no option present the vector is the extra arguments alone;
    numbers that are zero or negative count as absent. *)
Theorem buildScrcpyArgs_no_options :
  deviceID = EmptyString -> BitRate o = EmptyString ->
  (MaxSize o <= 0)%Z -> (MaxFps o <= 0)%Z ->
  TurnScreenOff o = false -> Fullscreen o = false -> StayAwake o = false ->
  Record_ o = EmptyString -> WindowTitle o = EmptyString ->
  buildScrcpyArgs deviceID o = ExtraArgs o.
Proof.
  intros -> Hb Hs Hf Ht Hfu Hst Hr Hw.
  rewrite buildScrcpyArgs_spec.
  unfold specScrcpyArgs, strFlag, numFlag, boolFlag.
  rewrite Hb, Ht, Hfu, Hst, Hr, Hw.
  assert ((0 <? MaxSize o)%Z = false) as -> by (apply Z.ltb_ge; lia).
  assert ((0 <? MaxFps o)%Z = false) as -> by (apply Z.ltb_ge; lia).
  reflexivity.
Qed.

(** The device selector and the identifier come first, before the
    arguments of the options, which do not depend on the device. *)
Theorem buildScrcpyArgs_device_first :
  deviceID <> EmptyString ->
  buildScrcpyArgs deviceID o
  = "-s" :: deviceID :: buildScrcpyArgs EmptyString o.
Proof.
  intros Hd. rewrite !buildScrcpyArgs_spec.
  unfold specScrcpyArgs.
  change (strFlag "-s" EmptyString) with (@nil string).
  unfold strFlag at 1.
  destruct (String.eqb_spec deviceID EmptyString); [contradiction|].
  reflexivity.
Qed.

(** The options add at most fifteen arguments to the extra ones. *)
Theorem buildScrcpyArgs_length :
  List.length (ExtraArgs o) <= List.length (buildScrcpyArgs deviceID o)
  <= 15 + List.length (ExtraArgs o).
Proof.
  rewrite buildScrcpyArgs_spec.
  unfold specScrcpyArgs, strFlag, numFlag, boolFlag.
  rewrite !length_app.
  destruct (deviceID =? EmptyString), (BitRate o =? EmptyString),
    (0 <? MaxSize o)%Z, (0 <? MaxFps o)%Z, (TurnScreenOff o), (Fullscreen o),
    (StayAwake o), (Record_ o =? EmptyString), (WindowTitle o =? EmptyString);
    simpl; lia.
Qed.

End ScrcpyArgsMore.

Lemma buildScrcpyArgs_no_options_witness :
  buildScrcpyArgs EmptyString
    {| BitRate := EmptyString; MaxSize := -1; MaxFps := 0;
       TurnScreenOff := false; Fullscreen := false; StayAwake := false;
       Record_ := EmptyString; WindowTitle := EmptyString;
       ExtraArgs := ["--no-audio"; "-s"] |}
  = ["--no-audio"; "-s"].
Proof.
  apply (buildScrcpyArgs_no_options EmptyString
           {| BitRate := EmptyString; MaxSize := -1; MaxFps := 0;
              TurnScreenOff := false; Fullscreen := false; StayAwake := false;
              Record_ := EmptyString; WindowTitle := EmptyString;
              ExtraArgs := ["--no-audio"; "-s"] |});
    try reflexivity; simpl; lia.
Defined.

Lemma buildScrcpyArgs_device_first_witness :
  buildScrcpyArgs "abc123" defaultOptions
  = "-s" :: "abc123" :: buildScrcpyArgs EmptyString defaultOptions.
Proof.
  apply (buildScrcpyArgs_device_first "abc123" defaultOptions). discriminate.
Defined.

(** ** [NewBackend] *)

(** A new backend never has an empty path: an empty path is replaced by the
    bare command name and any other path is kept; the timeouts are ten
    seconds and twenty-four hours, in nanoseconds; no session is stored. *)
Theorem NewBackend_defaults (adb scr : string) :
  let b := NewBackend adb scr in
  adbPath b <> EmptyString /\ scrcpyPath b <> EmptyString /\
  (adb <> EmptyString -> adbPath b = adb) /\
  (scr <> EmptyString -> scrcpyPath b = scr) /\
  (adb = EmptyString -> adbPath b = "adb") /\
  (scr = EmptyString -> scrcpyPath b = "scrcpy") /\
  adbTimeout b = 10000000000%Z /\ scrcpyTimeout b = 86400000000000%Z /\
  scrcpyCmd b = None /\ scrcpyCancel b = None.
Proof.
  unfold NewBackend. simpl.
  destruct (String.eqb_spec adb EmptyString) as [Ha|Ha],
    (String.eqb_spec scr EmptyString) as [Hs|Hs];
    repeat split; try assumption; try discriminate; try reflexivity;
    intros H; try contradiction; congruence.
Qed.

Lemma NewBackend_defaults_witness :
  adbPath (NewBackend "/opt/platform-tools/adb" EmptyString)
  = "/opt/platform-tools/adb" /\
  scrcpyPath (NewBackend "/opt/platform-tools/adb" EmptyString) = "scrcpy".
Proof.
  destruct (NewBackend_defaults "/opt/platform-tools/adb" EmptyString)
    as (_ & _ & Ha & _ & _ & Hs & _).
  split; [apply Ha; discriminate | apply Hs; reflexivity].
Defined.

(** ** More on the mirroring session *)

Section SessionMore.

Import Session.

(** A failed spawn is reported as [command_failed] with the spawn error as
    its cause and leaves the backend idle, so that a later start can
    succeed. *)
Theorem StartScrcpy_spawn_failure (w : World) (err : GoError)
    (deviceID : string) (options : ScrcpyOptions) :
  scrcpyCmd (backend w) = None ->
  exists e,
    StartScrcpy (Some err) deviceID options w = (Some e, w) /\
    Kind e = ErrorKindCommandFailed /\
    Unwrap (Some e) = Some err /\
    Stdout e = EmptyString /\ Stderr e = EmptyString /\ ExitCode e = 0%Z /\
    forall deviceID' options',
      fst (StartScrcpy None deviceID' options'
             (snd (StartScrcpy (Some err) deviceID options w))) = None.
Proof.
  intros Hidle. unfold StartScrcpy. rewrite Hidle. simpl.
  eexists. repeat split. intros d' o'. now rewrite Hidle.
Qed.

(** A start on an idle backend stores a handle for the configured binary
    with the arguments built from the options, and every start after it
    fails with [command_failed] and changes nothing. *)
Theorem StartScrcpy_twice (w : World) (deviceID : string)
    (options : ScrcpyOptions) :
  scrcpyCmd (backend w) = None ->
  let started := snd (StartScrcpy None deviceID options w) in
  fst (StartScrcpy None deviceID options w) = None /\
  (exists cmd,
      scrcpyCmd (backend started) = Some cmd /\
      scrcpyCancel (backend started) = Some (cmd_pid cmd) /\
      cmd_path cmd = scrcpyPath (backend w) /\
      cmd_args cmd = buildScrcpyArgs deviceID options /\
      In (cmd_pid cmd) (live started)) /\
  forall startErr deviceID' options',
    exists e,
      StartScrcpy startErr deviceID' options' started = (Some e, started) /\
      Kind e = ErrorKindCommandFailed /\
      Error (Some e) = "command failed: scrcpy".
Proof.
  intros Hidle started.
  assert (StartScrcpy None deviceID options w
          = (None,
             {| backend :=
                  setSession (backend w)
                    (Some {| cmd_pid := nextPid w;
                             cmd_path := scrcpyPath (backend w);
                             cmd_args := buildScrcpyArgs deviceID options |})
                    (Some (nextPid w));
                live := nextPid w :: live w;
                watchers := nextPid w :: watchers w;
                stopped := stopped w;
                nextPid := S (nextPid w) |})) as Hstart
    by (unfold StartScrcpy; now rewrite Hidle).
  subst started. rewrite Hstart. simpl.
  split; [reflexivity|]. split.
  - eexists. split; [reflexivity|]. simpl.
    split; [reflexivity|]. split; [reflexivity|]. split; [reflexivity|].
    now left.
  - intros startErr d' o'. unfold StartScrcpy. simpl.
    eexists. split; [reflexivity|]. split; reflexivity.
Qed.

(** [StopScrcpy] writes no field of the backend and ends no watcher; with a
    handle stored, a start that comes after the stop and before the watcher
    has run still finds the handle and fails with [command_failed]. *)
Theorem StopScrcpy_keeps_handle (w : World) (waitReturned : bool) :
  backend (snd (StopScrcpy waitReturned w)) = backend w /\
  watchers (snd (StopScrcpy waitReturned w)) = watchers w /\
  forall cmd startErr deviceID options,
    scrcpyCmd (backend w) = Some cmd ->
    exists e,
      fst (StartScrcpy startErr deviceID options
             (snd (StopScrcpy waitReturned w))) = Some e /\
      Kind e = ErrorKindCommandFailed.
Proof.
  assert (backend (snd (StopScrcpy waitReturned w)) = backend w) as Hb.
  { unfold StopScrcpy.
    destruct (scrcpyCmd (backend w)), (scrcpyCancel (backend w)),
      waitReturned; reflexivity. }
  split; [exact Hb|]. split.
  - unfold StopScrcpy.
    destruct (scrcpyCmd (backend w)), (scrcpyCancel (backend w)),
      waitReturned; reflexivity.
  - intros cmd startErr d o Hcmd. unfold StartScrcpy. rewrite Hb, Hcmd.
    eexists. split; reflexivity.
Qed.

(** In every reachable world the handle and the cancel function are stored
    together or not at all, at most one watcher is pending, it is pending
    exactly while a handle is stored, and every live process has its
    watcher. *)
Theorem session_invariants (w : World) :
  reachable w ->
  (scrcpyCmd (backend w) = None <-> scrcpyCancel (backend w) = None) /\
  List.length (watchers w) <= 1 /\
  (watchers w = [] <-> scrcpyCmd (backend w) = None) /\
  (forall pid, In pid (live w) -> In pid (watchers w)).
Proof.
  intros Hr. apply SessionFacts.reachable_consistent in Hr.
  unfold consistent in Hr.
  destruct (scrcpyCmd (backend w)) as [cmd|].
  - destruct Hr as [Hc [Hw Hl]]. rewrite Hc, Hw. simpl.
    split; [split; discriminate|]. split; [lia|].
    split; [split; discriminate|].
    intros pid Hin. destruct Hl as [Hl | Hl]; rewrite Hl in Hin;
      [exact Hin | destruct Hin].
  - destruct Hr as [Hc [Hl Hw]]. rewrite Hc, Hl, Hw. simpl.
    split; [split; reflexivity|]. split; [lia|].
    split; [split; reflexivity|]. intros pid [].
Qed.

(** What [StopScrcpy] can return in a reachable world: [not_running]
    exactly when no handle is stored; otherwise nothing, or a [timeout]
    whose cause is the deadline error of the wait and whose command is
    "scrcpy"; never [command_failed], [parse] or [invalid_input].  The
    process whose handle is stored is marked as stopped, and it is the only
    one. *)
Theorem StopScrcpy_outcomes (w : World) (waitReturned : bool) :
  reachable w ->
  (fst (StopScrcpy waitReturned w) = None -> scrcpyCmd (backend w) <> None) /\
  (forall e, fst (StopScrcpy waitReturned w) = Some e ->
     (Kind e = ErrorKindNotRunning <-> scrcpyCmd (backend w) = None) /\
     (Kind e <> ErrorKindNotRunning ->
      Kind e = ErrorKindTimeout /\
      Unwrap (Some e) = Some DeadlineExceeded /\ Command e = "scrcpy")) /\
  (forall cmd, scrcpyCmd (backend w) = Some cmd ->
     stopped (snd (StopScrcpy waitReturned w)) = cmd_pid cmd :: stopped w) /\
  (scrcpyCmd (backend w) = None ->
   snd (StopScrcpy waitReturned w) = w).
Proof.
  intros Hr. apply SessionFacts.reachable_consistent in Hr.
  unfold consistent in Hr. unfold StopScrcpy.
  destruct (scrcpyCmd (backend w)) as [cmd|].
  - destruct Hr as [-> _]. destruct waitReturned; simpl.
    + split; [discriminate|]. split; [discriminate|].
      split; [intros c H; now injection H as <- | discriminate].
    + split; [discriminate|]. split.
      * intros e H. injection H as <-. simpl.
        split; [split; discriminate|]. intros _. now repeat split.
      * split; [intros c H; now injection H as <- | discriminate].
  - simpl. split; [discriminate|]. split.
    + intros e H. injection H as <-. simpl.
      split; [split; reflexivity|]. intros H. contradiction.
    + split; [discriminate | reflexivity].
Qed.

(** Whatever the calls and exits so far, the configuration of the backend
    is the one [NewBackend] made, and a stored handle runs the configured
    mirroring binary with arguments built by [buildScrcpyArgs]. *)
Theorem session_keeps_configuration (w : World) :
  reachable w ->
  adbPath (backend w) <> EmptyString /\
  scrcpyPath (backend w) <> EmptyString /\
  adbTimeout (backend w) = defaultAdbTimeout /\
  scrcpyTimeout (backend w) = defaultScrcpyTimeout /\
  forall cmd, scrcpyCmd (backend w) = Some cmd ->
    cmd_path cmd = scrcpyPath (backend w) /\
    exists deviceID options, cmd_args cmd = buildScrcpyArgs deviceID options.
Proof.
  induction 1 as [adb scr | w w' Hr IH Hs].
  - destruct (NewBackend_defaults adb scr) as (Ha & Hs & _).
    simpl in *.
    refine (conj Ha (conj Hs (conj eq_refl (conj eq_refl _)))).
    intros cmd H. discriminate.
  - destruct IH as (Ha & Hp & Hta & Hts & Hcmd).
    destruct Hs as [startErr deviceID options w | waitReturned w | pid w Hin
                   | pid w Hin Hnot Hsole | pid w Hin Hnot Hstop].
    + unfold StartScrcpy.
      destruct (scrcpyCmd (backend w)) as [cmd|] eqn:Hc; simpl.
      * refine (conj Ha (conj Hp (conj Hta (conj Hts _)))).
        rewrite Hc. exact Hcmd.
      * destruct startErr as [err|]; simpl.
        -- refine (conj Ha (conj Hp (conj Hta (conj Hts _)))).
           rewrite Hc. exact Hcmd.
        -- refine (conj Ha (conj Hp (conj Hta (conj Hts _)))).
           intros cmd H. injection H as <-. simpl.
           split; [reflexivity|]. now exists deviceID, options.
    + destruct (StopScrcpy_keeps_handle w waitReturned) as [-> _].
      exact (conj Ha (conj Hp (conj Hta (conj Hts Hcmd)))).
    + simpl. exact (conj Ha (conj Hp (conj Hta (conj Hts Hcmd)))).
    + simpl. refine (conj Ha (conj Hp (conj Hta (conj Hts _)))).
      intros cmd H. discriminate.
    + simpl. refine (conj Ha (conj Hp (conj Hta (conj Hts _)))).
      intros cmd H. discriminate.
Qed.

End SessionMore.

Section SessionMoreWitnesses.

Import Session.

Lemma StartScrcpy_spawn_failure_witness :
  exists e,
    StartScrcpy (Some (Wrapped "exec: scrcpy" (Errorf "executable file not found in $PATH" [])))
      "abc123" defaultOptions (initial EmptyString EmptyString)
    = (Some e, initial EmptyString EmptyString) /\
    Kind e = ErrorKindCommandFailed /\
    Unwrap (Some e)
    = Some (Wrapped "exec: scrcpy" (Errorf "executable file not found in $PATH" [])) /\
    Stdout e = EmptyString /\ Stderr e = EmptyString /\ ExitCode e = 0%Z /\
    forall deviceID' options',
      fst (StartScrcpy None deviceID' options'
             (snd (StartScrcpy
                     (Some (Wrapped "exec: scrcpy"
                              (Errorf "executable file not found in $PATH" [])))
                     "abc123" defaultOptions
                     (initial EmptyString EmptyString)))) = None.
Proof.
  apply (StartScrcpy_spawn_failure (initial EmptyString EmptyString)).
  reflexivity.
Defined.

Lemma StartScrcpy_twice_witness :
  exists e,
    StartScrcpy None "emulator-5554" defaultOptions startedOnce
    = (Some e, startedOnce) /\
    Kind e = ErrorKindCommandFailed /\
    Error (Some e) = "command failed: scrcpy".
Proof.
  apply (proj2 (proj2 (StartScrcpy_twice (initial EmptyString EmptyString)
                         "abc123" defaultOptions eq_refl))
           None "emulator-5554" defaultOptions).
Defined.

Lemma StopScrcpy_keeps_handle_witness :
  exists e,
    fst (StartScrcpy None "abc123" defaultOptions
           (snd (StopScrcpy true startedOnce))) = Some e /\
    Kind e = ErrorKindCommandFailed.
Proof.
  apply (proj2 (proj2 (StopScrcpy_keeps_handle startedOnce true))
           {| cmd_pid := 0; cmd_path := "scrcpy";
              cmd_args := ["-s"; "abc123"] |}).
  reflexivity.
Defined.

Lemma session_invariants_witness :
  (scrcpyCmd (backend startedOnce) = None <->
   scrcpyCancel (backend startedOnce) = None) /\
  List.length (watchers startedOnce) <= 1 /\
  (watchers startedOnce = [] <-> scrcpyCmd (backend startedOnce) = None) /\
  (forall pid, In pid (live startedOnce) -> In pid (watchers startedOnce)).
Proof.
  apply (session_invariants startedOnce). apply startedOnce_reachable.
Defined.

Lemma StopScrcpy_outcomes_witness :
  stopped (snd (StopScrcpy false startedOnce)) = [0] /\
  exists e, fst (StopScrcpy false startedOnce) = Some e /\
            Kind e = ErrorKindTimeout /\
            Unwrap (Some e) = Some DeadlineExceeded /\ Command e = "scrcpy".
Proof.
  destruct (StopScrcpy_outcomes startedOnce false startedOnce_reachable)
    as (_ & Herr & Hmark & _).
  split.
  - apply (Hmark {| cmd_pid := 0; cmd_path := "scrcpy";
                    cmd_args := ["-s"; "abc123"] |}).
    reflexivity.
  - exists (newTimeoutError "scrcpy" DeadlineExceeded).
    split; [reflexivity|].
    apply (proj2 (Herr (newTimeoutError "scrcpy" DeadlineExceeded) eq_refl)).
    discriminate.
Defined.

Lemma session_keeps_configuration_witness :
  adbPath (backend startedOnce) <> EmptyString /\
  scrcpyPath (backend startedOnce) <> EmptyString /\
  adbTimeout (backend startedOnce) = defaultAdbTimeout /\
  scrcpyTimeout (backend startedOnce) = defaultScrcpyTimeout /\
  forall cmd, scrcpyCmd (backend startedOnce) = Some cmd ->
    cmd_path cmd = scrcpyPath (backend startedOnce) /\
    exists deviceID options, cmd_args cmd = buildScrcpyArgs deviceID options.
Proof.
  apply (session_keeps_configuration startedOnce). apply startedOnce_reachable.
Defined.

End SessionMoreWitnesses.
